(** * Sentence-complexity dataset containers (group3/code/data.py)

    A shallow embedding of [SentenceComplexityDataset],
    [SentenceComplexityFinetuningDataset], [tokenize_sentences] and
    [get_dataset].  Python objects that are shared by reference (the item
    dicts, the BatchEncoding, the tensors) live in an explicit store;
    exceptions are the left summand of the result. *)

From Stdlib Require Import ZArith QArith Lia.
From stdpp Require Import base option list gmap strings fin_maps.

Local Open Scope Z_scope.

(** ** Exceptions *)

Inductive exn :=
| KeyError
| IndexError
| AttributeError
| TypeError
| ValueError
| OSError.

(** ** Values *)

(** Store addresses: an object is identified by its position in the store. *)
Abbreviation loc := nat (only parsing).

(** A BatchEncoding: field name to a two-dimensional integer tensor (the rows
    of token ids or of mask bits, one row per sentence). *)
Abbreviation BatchEncoding := (gmap string (list (list Z))) (only parsing).

(** A cell of a DataFrame column, after [list(df[...])]; [scalar] is a
    numeric CSV cell as pandas hands it over. *)
Inductive cell (scalar : Type) :=
| Num (x : scalar)
| Str (s : string).
Arguments Num {scalar} x.
Arguments Str {scalar} s.

(** A parsed CSV file: column name to column. *)
Abbreviation DataFrame scalar := (gmap string (list (cell scalar))) (only parsing).

(** What an entry of the [data] dict can hold: a Python list, or a reference
    to a stored object. *)
Inductive pyobj (scalar : Type) :=
| PList (xs : list (cell scalar))
| PRef (l : loc).
Arguments PList {scalar} xs.
Arguments PRef {scalar} l.

(** The values of an item dict: [val[idx, :]] is a row, [self.id[idx]] and
    [self.mos[idx]] are zero-dimensional tensors; [elt] is an element of a
    torch [Tensor]. *)
Inductive value (elt : Type) :=
| VRow (r : list Z)
| VElt (x : elt).
Arguments VRow {elt} r.
Arguments VElt {elt} x.

(** Stored (mutable, shared) objects. *)
Inductive obj (elt : Type) :=
| ODict (d : gmap string (value elt))
| OBatch (b : BatchEncoding)
| OTensor (v : list elt).
Arguments ODict {elt} d.
Arguments OBatch {elt} b.
Arguments OTensor {elt} v.

Abbreviation store elt := (list (obj elt)) (only parsing).

(** ** State and exception monad *)

Definition M (elt A : Type) : Type := store elt → (exn + A) * store elt.

Definition ret {elt A} (a : A) : M elt A := λ s, (inr a, s).

Definition raise {elt A} (e : exn) : M elt A := λ s, (inl e, s).

Definition bind {elt A B} (c : M elt A) (k : A → M elt B) : M elt B :=
  λ s, match c s with
       | (inr a, s') => k a s'
       | (inl e, s') => (inl e, s')
       end.

#[global] Instance M_ret {elt} : MRet (M elt) := λ A, ret.
#[global] Instance M_bind {elt} : MBind (M elt) := λ A B k c, bind c k.

(** [try: body except KeyError: handler] *)
Definition try_except_KeyError {elt A} (body handler : M elt A) : M elt A :=
  λ s, match body s with
       | (inl KeyError, s') => handler s'
       | r => r
       end.

(** A pure partial operation that raises [e] where it is undefined. *)
Definition lift {elt A} (e : exn) (o : option A) : M elt A :=
  match o with
  | Some a => ret a
  | None => raise e
  end.

(** The outcome of an external collaborator. *)
Definition call {elt A} (r : exn + A) : M elt A :=
  match r with
  | inr a => ret a
  | inl e => raise e
  end.

(** ** Store primitives *)

(** A new object gets the next address. *)
Definition alloc {elt} (o : obj elt) : M elt loc :=
  λ s, (inr (length s), s ++ [o]).

(** Reading the object at an address.  The code never holds an address of
    nothing; in the model such a read is an error. *)
Definition load {elt} (l : loc) : M elt (obj elt) :=
  λ s, match s !! l with
       | Some o => (inr o, s)
       | None => (inl AttributeError, s)
       end.

(** [d[k] = v] on the dict stored at [l]. *)
Definition dict_setitem {elt} (l : loc) (k : string) (v : value elt) : M elt unit :=
  λ s, match s !! l with
       | Some (ODict d) => (inr (), <[l := ODict (<[k := v]> d)]> s)
       | _ => (inl TypeError, s)
       end.

(** [o.pop(k, None)] on the object stored at [l].  A dict and a
    BatchEncoding (a mapping as well) both have [pop]: the entry is removed
    in place if it is there, and the popped value (or [None]) is returned.
    A tensor has no [pop]. *)
Definition dict_pop {elt} (l : loc) (k : string)
  : M elt (option (value elt + list (list Z))) :=
  λ s, match s !! l with
       | Some (ODict d) => (inr (inl <$> d !! k), <[l := ODict (delete k d)]> s)
       | Some (OBatch b) => (inr (inr <$> b !! k), <[l := OBatch (delete k b)]> s)
       | _ => (inl AttributeError, s)
       end.

(** [d[k]] on a Python dict held by value. *)
Definition dict_getitem {elt A} (d : gmap string A) (k : string) : M elt A :=
  lift KeyError (d !! k).

(** ** Indexing *)

(** The integers torch can unpack into a signed 64-bit index. *)
Definition int64 (idx : Z) : Prop := - 2 ^ 63 ≤ idx < 2 ^ 63.

(** An integer index into a dimension of size [n]: negative indices count
    from the end, anything outside [-n, n) is out of range.  This is the
    bounds check torch makes on an [int64] index; an integer beyond 64 bits
    torch rejects with an overflow error before it looks at the size, which
    is not modelled: what is proved about failing indices is proved for
    [int64] ones. *)
Definition norm_index (n : nat) (idx : Z) : option nat :=
  if decide (0 ≤ idx < Z.of_nat n) then Some (Z.to_nat idx)
  else if decide (- Z.of_nat n ≤ idx < 0) then Some (Z.to_nat (Z.of_nat n + idx))
  else None.

(** [t[idx]] (and [t[idx, :]] when the elements are rows). *)
Definition tensor_index {A} (t : list A) (idx : Z) : option A :=
  i ← norm_index (length t) idx; t !! i.

(** [{key: val[idx, :] for key, val in st.items()}]: every field is sliced,
    and one field out of range fails the whole comprehension. *)
Definition slice_rows {elt} (st : BatchEncoding) (idx : Z) : option (gmap string (value elt)) :=
  if decide (map_Forall (λ _ t, is_Some (tensor_index t idx)) st)
  then Some (omap (λ t, VRow <$> tensor_index t idx) st)
  else None.

(** [st.items()]: only a BatchEncoding (a mapping) has it. *)
Definition items {scalar elt} (st : pyobj scalar) : M elt BatchEncoding :=
  match st with
  | PRef l =>
      o ← load l;
      match o with
      | OBatch b => ret b
      | _ => raise AttributeError
      end
  | PList _ => raise AttributeError
  end.

(** The elements of the tensor stored at [l]. *)
Definition tensor_at {elt} (l : loc) : M elt (list elt) :=
  o ← load l;
  match o with
  | OTensor v => ret v
  | _ => raise TypeError
  end.

(** ** SentenceComplexityDataset *)

Record SentenceComplexityDataset (scalar : Type) := {
  self_st : pyobj scalar;
  self_id : loc;
  self_mos : option loc
}.
Arguments self_st {scalar} _.
Arguments self_id {scalar} _.
Arguments self_mos {scalar} _.

(** The interface both containers (and anything the adapter wraps) offer. *)
Class Dataset (elt D : Type) := {
  len : D → M elt nat;
  getitem : D → Z → M elt loc
}.

Section Model.

Context {scalar elt : Type}.

(** The element conversion performed by the [Tensor(...)] constructor. *)
Variable Tensor_elt : scalar → elt.

Definition num_of (c : cell scalar) : option scalar :=
  match c with
  | Num x => Some x
  | Str _ => None
  end.

(** What [Tensor(xs)] raises on a list with a string in it: the shape is
    taken from the first element, so a list that starts with a string is a
    [ValueError]; a string further on is a [TypeError] when the elements
    are stored. *)
Definition list_error (xs : list (cell scalar)) : exn :=
  match xs with
  | Str _ :: _ => ValueError
  | _ => TypeError
  end.

(** [Tensor(o)]: a list of numbers becomes a new one-dimensional tensor.
    A BatchEncoding has no shape: [ValueError]. *)
Definition Tensor (o : pyobj scalar) : M elt loc :=
  match o with
  | PList xs =>
      v ← lift (list_error xs) (mapM num_of xs);
      alloc (OTensor (Tensor_elt <$> v))
  | PRef _ => raise ValueError
  end.

(** [SentenceComplexityDataset.__init__] *)
Definition SentenceComplexityDataset_init (data : gmap string (pyobj scalar))
  : M elt (SentenceComplexityDataset scalar) :=
  st ← dict_getitem data "st";
  ids ← dict_getitem data "id";
  id ← Tensor ids;
  mos ← try_except_KeyError
           (m ← dict_getitem data "mos"; t ← Tensor m; ret (Some t))
           (ret None);
  ret {| self_st := st; self_id := id; self_mos := mos |}.

(** [SentenceComplexityDataset.__len__] *)
Definition SentenceComplexityDataset_len (self : SentenceComplexityDataset scalar)
  : M elt nat :=
  ids ← tensor_at (self_id self);
  ret (length ids).

(** [SentenceComplexityDataset.__getitem__] *)
Definition SentenceComplexityDataset_getitem (self : SentenceComplexityDataset scalar)
  (idx : Z) : M elt loc :=
  st ← items (self_st self);
  rows ← lift IndexError (slice_rows st idx);
  item ← alloc (ODict rows);
  ids ← tensor_at (self_id self);
  x ← lift IndexError (tensor_index ids idx);
  dict_setitem item "id" (VElt x) ;;
  match self_mos self with
  | Some lm =>
      ms ← tensor_at lm;
      y ← lift IndexError (tensor_index ms idx);
      dict_setitem item "label" (VElt y)
  | None => ret ()
  end ;;
  ret item.

#[global] Instance SentenceComplexityDataset_Dataset
  : Dataset elt (SentenceComplexityDataset scalar) := {
  len := SentenceComplexityDataset_len;
  getitem := SentenceComplexityDataset_getitem
}.

(** ** SentenceComplexityFinetuningDataset *)

(** The adapter holds a reference to the wrapped dataset and nothing else;
    the wrapped object is anything with [__len__] and [__getitem__]. *)
Record SentenceComplexityFinetuningDataset (D : Type) := {
  self_dataset : D
}.
Arguments self_dataset {D} _.

(** [SentenceComplexityFinetuningDataset.__len__] *)
Definition SentenceComplexityFinetuningDataset_len {D} `{!Dataset elt D}
  (self : SentenceComplexityFinetuningDataset D) : M elt nat :=
  len (self_dataset self).

(** [SentenceComplexityFinetuningDataset.__getitem__]: the dict the wrapped
    dataset returned is changed in place and handed on. *)
Definition SentenceComplexityFinetuningDataset_getitem {D} `{!Dataset elt D}
  (self : SentenceComplexityFinetuningDataset D) (idx : Z) : M elt loc :=
  item ← getitem (self_dataset self) idx;
  dict_pop item "id";;
  ret item.

#[global] Instance SentenceComplexityFinetuningDataset_Dataset {D} `{!Dataset elt D}
  : Dataset elt (SentenceComplexityFinetuningDataset D) := {
  len := SentenceComplexityFinetuningDataset_len;
  getitem := SentenceComplexityFinetuningDataset_getitem
}.

(** ** Loading *)

(** The external collaborators: [BertTokenizer.from_pretrained] resolves a
    model name to a tokenizer or raises, the tokenizer encodes the sentences
    or raises; [pd.read_csv] parses the file at a path or raises. *)
Variable BertTokenizer_from_pretrained :
  string → exn + (list (cell scalar) → exn + BatchEncoding).
Variable read_csv : string → exn + DataFrame scalar.

(** [tokenize_sentences]: the BatchEncoding is a new stored object. *)
Definition tokenize_sentences (sentences : list (cell scalar))
  (bert_base_model : string) : M elt (pyobj scalar) :=
  bert_tokenizer ← call (BertTokenizer_from_pretrained bert_base_model);
  b ← call (bert_tokenizer sentences);
  l ← alloc (OBatch b);
  ret (PRef l).

(** Truth value of [mos_targets]: [None] and the empty list are false. *)
Definition truthy {A} (o : option (list A)) : bool :=
  match o with
  | Some (_ :: _) => true
  | _ => false
  end.

(** [get_dataset].  Where [mos_targets] is true it is a list, which is what
    goes under ["mos"]. *)
Definition get_dataset (dataset_file_path bert_base_model : string)
  : M elt (SentenceComplexityDataset scalar) :=
  df_dataset ← call (read_csv dataset_file_path);
  sent_ids ← dict_getitem df_dataset "sent_id";
  sentences ← dict_getitem df_dataset "sentence";
  mos_targets ← try_except_KeyError
                  (c ← dict_getitem df_dataset "MOS"; ret (Some c))
                  (ret None);
  sentences_tokenized ← tokenize_sentences sentences bert_base_model;
  let test_data_dict : gmap string (pyobj scalar) :=
    <["st" := sentences_tokenized]> {["id" := PList sent_ids]} in
  let test_data_dict :=
    if truthy mos_targets
    then <["mos" := PList (default [] mos_targets)]> test_data_dict
    else test_data_dict in
  SentenceComplexityDataset_init test_data_dict.

(** ** What a container holds *)

(** The tokenized batch, the identifier vector and the target vector of a
    container, read from the store. *)
Definition batch_of (d : SentenceComplexityDataset scalar) (s : store elt)
  : option BatchEncoding :=
  match self_st d with
  | PRef l => match s !! l with Some (OBatch b) => Some b | _ => None end
  | PList _ => None
  end.

Definition ids_of (d : SentenceComplexityDataset scalar) (s : store elt)
  : option (list elt) :=
  match s !! self_id d with Some (OTensor v) => Some v | _ => None end.

Definition mos_of (d : SentenceComplexityDataset scalar) (s : store elt)
  : option (option (list elt)) :=
  match self_mos d with
  | None => Some None
  | Some l => match s !! l with Some (OTensor v) => Some (Some v) | _ => None end
  end.

(** In store [s], container [d] holds batch [b], identifiers [ids] and
    targets [om]. *)
Definition holds (d : SentenceComplexityDataset scalar) (s : store elt)
  (b : BatchEncoding) (ids : list elt) (om : option (list elt)) : Prop :=
  batch_of d s = Some b ∧ ids_of d s = Some ids ∧ mos_of d s = Some om.

(** The data-model invariant: every field of the batch has as many rows as
    there are identifiers, and so has the target vector when there is one. *)
Definition aligned (b : BatchEncoding) (ids : list elt) (om : option (list elt)) : Prop :=
  map_Forall (λ _ t, length t = length ids) b ∧
  from_option (λ ms, length ms = length ids) True om.

Definition inv (d : SentenceComplexityDataset scalar) (s : store elt) : Prop :=
  ∃ b ids om, holds d s b ids om ∧ aligned b ids om.

(** The item dict a container builds for the index [idx]. *)
Definition item_of (b : BatchEncoding) (ids : list elt) (om : option (list elt))
  (idx : Z) : option (gmap string (value elt)) :=
  rows ← slice_rows b idx;
  x ← tensor_index ids idx;
  match om with
  | Some ms => y ← tensor_index ms idx; Some (<["label" := VElt y]> (<["id" := VElt x]> rows))
  | None => Some (<["id" := VElt x]> rows)
  end.

End Model.

(** * A concrete instance

    A small file system, tokenizer and store to run the definitions on.
    Numeric cells and tensor elements are rationals; the values used are
    exactly representable as tensor elements, so the conversion leaves them
    as they are. *)

Module Example.

Definition Tensor_elt (q : Q) : Q := q.

Definition str_of (c : cell Q) : option string :=
  match c with
  | Str t => Some t
  | Num _ => None
  end.

(** A tokenizer: one row of three token ids and a full mask per sentence. *)
Definition tokenizer (sentences : list (cell Q)) : exn + BatchEncoding :=
  match mapM (M := option) str_of sentences with
  | Some ss =>
      inr (<["input_ids" := (λ t, [101; Z.of_nat (String.length t); 102]) <$> ss]>
             {["attention_mask" := (λ _, [1; 1; 1]) <$> ss]})
  | None => inl ValueError
  end.

Definition from_pretrained (name : string)
  : exn + (list (cell Q) → exn + BatchEncoding) :=
  if decide (name = "bert-base-uncased") then inr tokenizer else inl OSError.

Definition sentences : list (cell Q) :=
  [Str "The cat sat."; Str "A very long sentence about quantum mechanics."].

Definition train_csv : DataFrame Q :=
  <["sent_id" := [Num (1 # 1); Num (2 # 1)]%Q]>
    (<["sentence" := sentences]>
       {["MOS" := [Num (5 # 2); Num (19 # 4)]%Q]}).

Definition test_csv : DataFrame Q :=
  <["sent_id" := [Num (1 # 1); Num (2 # 1)]%Q]> {["sentence" := sentences]}.

Definition headless_csv : DataFrame Q :=
  {["sent_id" := [Num (1 # 1); Num (2 # 1)]%Q]}.

Definition read_csv (path : string) : exn + DataFrame Q :=
  if decide (path = "train.csv") then inr train_csv
  else if decide (path = "test.csv") then inr test_csv
  else if decide (path = "headless.csv") then inr headless_csv
  else inl OSError.

Definition batch : BatchEncoding :=
  <["input_ids" := [[101; 12; 102]; [101; 45; 102]]]>
    {["attention_mask" := [[1; 1; 1]; [1; 1; 1]]]}.

Definition ids : list Q := [1 # 1; 2 # 1]%Q.
Definition targets : list Q := [5 # 2; 19 # 4]%Q.

(** The store and the container that loading [train.csv] into an empty
    store leaves behind. *)
Definition heap : store Q := [OBatch batch; OTensor ids; OTensor targets].

Definition dataset : SentenceComplexityDataset Q :=
  {| self_st := PRef 0; self_id := 1%nat; self_mos := Some 2%nat |}.

End Example.

(** A second instance: a [data] dict with fewer targets than
    identifiers. *)

Module EmptyExample.

Definition short_data : gmap string (pyobj Q) :=
  <["st" := PRef 0%nat]>
    (<["id" := PList [Num (1 # 1); Num (2 # 1)]%Q]>
       {["mos" := PList [Num (5 # 2)]%Q]}).

End EmptyExample.

(** * Properties *)

(** Unfolding of the monad's plumbing. *)
Ltac munfold :=
  repeat progress
    (unfold mbind, M_bind, mret, M_ret, bind, ret, raise, lift, call,
       dict_getitem, tensor_at, load, alloc, items);
  cbn beta.

Section Indexing.

Context {A : Type}.
Implicit Types (t : list A) (idx : Z).

Lemma norm_index_nonneg n idx :
  0 ≤ idx < Z.of_nat n → norm_index n idx = Some (Z.to_nat idx).
Proof. intros H. unfold norm_index. rewrite decide_True; done. Qed.

Lemma norm_index_neg n idx :
  - Z.of_nat n ≤ idx < 0 → norm_index n idx = Some (Z.to_nat (Z.of_nat n + idx)).
Proof.
  intros H. unfold norm_index.
  rewrite decide_False by lia. rewrite decide_True; done.
Qed.

Lemma norm_index_out n idx :
  idx < - Z.of_nat n ∨ Z.of_nat n ≤ idx → norm_index n idx = None.
Proof.
  intros H. unfold norm_index. rewrite !decide_False by lia. done.
Qed.

Lemma norm_index_lt n idx i : norm_index n idx = Some i → (i < n)%nat.
Proof.
  unfold norm_index. repeat case_decide; intros [= <-]; lia.
Qed.

Lemma norm_index_is_Some n idx :
  is_Some (norm_index n idx) ↔ - Z.of_nat n ≤ idx < Z.of_nat n.
Proof.
  unfold norm_index. repeat case_decide; split; intros H'; try lia; eauto.
  by destruct H'.
Qed.

Lemma tensor_index_is_Some t idx :
  is_Some (tensor_index t idx) ↔ - Z.of_nat (length t) ≤ idx < Z.of_nat (length t).
Proof.
  unfold tensor_index. rewrite <- norm_index_is_Some. split.
  - intros [x Hx]. destruct (norm_index (length t) idx); eauto; done.
  - intros [i Hi]. rewrite Hi. simpl. apply lookup_lt_is_Some.
    eapply norm_index_lt; eauto.
Qed.

Lemma tensor_index_nonneg t (i : nat) :
  tensor_index t (Z.of_nat i) = t !! i.
Proof.
  unfold tensor_index. destruct (decide (i < length t)%nat) as [Hlt|Hge].
  - rewrite norm_index_nonneg by lia. simpl. by rewrite Nat2Z.id.
  - rewrite norm_index_out by lia. simpl. symmetry. apply lookup_ge_None. lia.
Qed.

Lemma tensor_index_wrap t (k : Z) :
  1 ≤ k ≤ Z.of_nat (length t) →
  tensor_index t (- k) = tensor_index t (Z.of_nat (length t) - k).
Proof.
  intros H. unfold tensor_index.
  rewrite norm_index_neg by lia. rewrite norm_index_nonneg by lia.
  simpl. f_equal.
Qed.

End Indexing.

Section Store.

Context {elt : Type}.
Implicit Types (s : store elt) (o : obj elt) (l : loc).

Lemma lookup_snoc_old s o l o' : s !! l = Some o' → (s ++ [o]) !! l = Some o'.
Proof. intros H. by apply lookup_app_l_Some. Qed.

Lemma lookup_snoc_new s o : (s ++ [o]) !! length s = Some o.
Proof. rewrite lookup_app_r by lia. by rewrite Nat.sub_diag. Qed.

Lemma insert_snoc s o o' : <[length s := o']> (s ++ [o]) = s ++ [o'].
Proof.
  rewrite insert_app_r_alt by lia. by rewrite Nat.sub_diag.
Qed.

Lemma lookup_fresh s : s !! length s = None.
Proof. apply lookup_ge_None. lia. Qed.

End Store.

Section Slicing.

Context {elt : Type}.
Implicit Types (b : BatchEncoding) (idx : Z).

Lemma slice_rows_lookup b idx (rows : gmap string (value elt)) k :
  slice_rows b idx = Some rows →
  rows !! k = b !! k ≫= (λ t, VRow <$> tensor_index t idx).
Proof.
  unfold slice_rows. case_decide; [|done]. intros [= <-]. apply lookup_omap.
Qed.

Lemma slice_rows_is_Some b idx :
  is_Some (slice_rows (elt := elt) b idx) ↔
  map_Forall (λ _ t, is_Some (tensor_index t idx)) b.
Proof.
  unfold slice_rows. case_decide; split; intros H'; eauto.
  - by destruct H'.
  - done.
Qed.

Lemma slice_rows_in_range b idx n :
  map_Forall (λ _ t, length t = n) b →
  - Z.of_nat n ≤ idx < Z.of_nat n →
  is_Some (slice_rows (elt := elt) b idx).
Proof.
  intros Hb Hidx. apply slice_rows_is_Some.
  intros k t Hk. apply tensor_index_is_Some. rewrite (Hb k t Hk). done.
Qed.

Lemma slice_rows_wrap b (k : Z) n :
  map_Forall (λ _ t, length t = n) b →
  1 ≤ k ≤ Z.of_nat n →
  slice_rows (elt := elt) b (- k) = slice_rows b (Z.of_nat n - k).
Proof.
  intros Hb Hk.
  assert (Heq : ∀ f t, b !! f = Some t →
            tensor_index t (- k) = tensor_index t (Z.of_nat n - k)).
  { intros f t Hf. rewrite <- (Hb f t Hf). apply tensor_index_wrap.
    rewrite (Hb f t Hf). done. }
  unfold slice_rows.
  assert (H1' := slice_rows_in_range b (- k) n Hb ltac:(lia)).
  assert (H2' := slice_rows_in_range b (Z.of_nat n - k) n Hb ltac:(lia)).
  apply slice_rows_is_Some in H1'. apply slice_rows_is_Some in H2'.
  rewrite !decide_True by done. f_equal.
  apply map_eq. intros f. rewrite !lookup_omap.
  destruct (b !! f) as [t|] eqn:Hf; simpl; [|done].
  by rewrite (Heq f t Hf).
Qed.

End Slicing.

Section Containers.

Context {scalar elt : Type}.
Implicit Types (d : SentenceComplexityDataset scalar) (s : store elt).
Implicit Types (b : BatchEncoding) (ids : list elt) (om : option (list elt)).
Implicit Types (m : gmap string (value elt)) (idx : Z).

(** What a container holds is not affected by objects allocated later. *)
Lemma holds_snoc d s b ids om o :
  holds d s b ids om → holds d (s ++ [o]) b ids om.
Proof.
  unfold holds, batch_of, ids_of, mos_of. intros (Hb & Hi & Hm).
  repeat split.
  - destruct (self_st d) as [|l]; [done|].
    destruct (s !! l) as [o'|] eqn:Hl; [|done].
    by rewrite (lookup_snoc_old s o l o' Hl).
  - destruct (s !! self_id d) as [o'|] eqn:Hl; [|done].
    by rewrite (lookup_snoc_old s o _ o' Hl).
  - destruct (self_mos d) as [l|]; [|done].
    destruct (s !! l) as [o'|] eqn:Hl; [|done].
    by rewrite (lookup_snoc_old s o l o' Hl).
Qed.

(** The store cells behind [holds]. *)
Lemma holds_cells d s b ids om :
  holds d s b ids om →
  ∃ lb, self_st d = PRef lb ∧ s !! lb = Some (OBatch b) ∧
        s !! self_id d = Some (OTensor ids) ∧
        match self_mos d with
        | Some lm => ∃ ms, om = Some ms ∧ s !! lm = Some (OTensor ms)
        | None => om = None
        end.
Proof.
  unfold holds, batch_of, ids_of, mos_of. intros (Hb & Hi & Hm).
  destruct (self_st d) as [|lb]; [done|]. exists lb.
  destruct (s !! lb) as [[| b0 |]|]; try done.
  destruct (s !! self_id d) as [[| |v]|]; try done.
  repeat split; try congruence.
  destruct (self_mos d) as [lm|]; [|congruence].
  destruct (s !! lm) as [[| |ms]|]; try done.
  exists ms. split; congruence.
Qed.

(** [__len__] is the size of the identifier vector and leaves the store
    alone. *)
Lemma len_run d s b ids om :
  holds d s b ids om →
  SentenceComplexityDataset_len d s = (inr (length ids), s).
Proof.
  intros (lb & _ & _ & Hid & _)%holds_cells.
  unfold SentenceComplexityDataset_len. munfold. by rewrite Hid.
Qed.

(** A successful [__getitem__]: one new dict, at the next address. *)
Lemma getitem_run d s b ids om idx m :
  holds d s b ids om →
  item_of b ids om idx = Some m →
  SentenceComplexityDataset_getitem d idx s = (inr (length s), s ++ [ODict m]).
Proof.
  intros (lb & Hst & Hlb & Hid & Hmos)%holds_cells Hitem.
  unfold item_of in Hitem.
  destruct (slice_rows b idx) as [rows|] eqn:Hrows; [|done].
  destruct (tensor_index ids idx) as [x|] eqn:Hx; [|done].
  simpl in Hitem.
  unfold SentenceComplexityDataset_getitem. munfold.
  rewrite Hst. munfold. rewrite Hlb, Hrows.
  rewrite (lookup_snoc_old _ _ _ _ Hid), Hx.
  unfold dict_setitem. rewrite lookup_snoc_new, insert_snoc.
  destruct (self_mos d) as [lm|].
  - destruct Hmos as (ms & -> & Hlm). munfold.
    rewrite (lookup_snoc_old _ _ _ _ Hlm).
    destruct (tensor_index ms idx) as [y|] eqn:Hy; [|done].
    simpl in Hitem. injection Hitem as <-.
    by rewrite lookup_snoc_new, insert_snoc.
  - subst om. by injection Hitem as <-.
Qed.

(** A failing [__getitem__]: an [IndexError]; the store is as before, up to
    the unfinished dict, which nothing refers to. *)
Lemma getitem_fail d s b ids om idx :
  holds d s b ids om →
  item_of b ids om idx = None →
  ∃ s', SentenceComplexityDataset_getitem d idx s = (inl IndexError, s') ∧
        (s' = s ∨ ∃ m, s' = s ++ [ODict m]).
Proof.
  intros (lb & Hst & Hlb & Hid & Hmos)%holds_cells Hitem.
  unfold item_of in Hitem.
  unfold SentenceComplexityDataset_getitem. munfold.
  rewrite Hst. munfold. rewrite Hlb.
  destruct (slice_rows b idx) as [rows|] eqn:Hrows; [|by eauto].
  rewrite (lookup_snoc_old _ _ _ _ Hid).
  destruct (tensor_index ids idx) as [x|] eqn:Hx; [|by eauto].
  simpl in Hitem.
  unfold dict_setitem. rewrite lookup_snoc_new, insert_snoc.
  destruct (self_mos d) as [lm|].
  - destruct Hmos as (ms & -> & Hlm). munfold.
    rewrite (lookup_snoc_old _ _ _ _ Hlm).
    destruct (tensor_index ms idx) as [y|] eqn:Hy; [done|]. by eauto.
  - by subst om.
Qed.

(** Under the invariant, the indices a container answers are exactly those
    of [-n, n). *)
Lemma item_of_in_range b ids om idx :
  aligned b ids om →
  - Z.of_nat (length ids) ≤ idx < Z.of_nat (length ids) →
  is_Some (item_of b ids om idx).
Proof.
  intros [Hb Hom] Hidx. unfold item_of.
  destruct (slice_rows_in_range (elt := elt) b idx _ Hb Hidx) as [rows ->].
  destruct (proj2 (tensor_index_is_Some ids idx) Hidx) as [x ->]. simpl.
  destruct om as [ms|]; [|by eauto]. simpl in Hom.
  destruct (proj2 (tensor_index_is_Some ms idx)) as [y ->]; [by rewrite Hom|].
  simpl. eauto.
Qed.

Lemma item_of_out_of_range b ids om idx :
  idx < - Z.of_nat (length ids) ∨ Z.of_nat (length ids) ≤ idx →
  item_of b ids om idx = None.
Proof.
  intros Hidx. unfold item_of.
  destruct (slice_rows b idx) as [rows|]; [|done]. simpl.
  destruct (tensor_index ids idx) as [x|] eqn:Hx; [|done].
  assert (is_Some (tensor_index ids idx)) as Hs by eauto.
  apply tensor_index_is_Some in Hs. lia.
Qed.

Lemma item_of_wrap b ids om (k : Z) :
  aligned b ids om →
  1 ≤ k ≤ Z.of_nat (length ids) →
  item_of b ids om (- k) = item_of b ids om (Z.of_nat (length ids) - k).
Proof.
  intros [Hb Hom] Hk. unfold item_of.
  rewrite (slice_rows_wrap b k _ Hb Hk).
  rewrite (tensor_index_wrap ids k Hk).
  destruct om as [ms|]; [|done]. simpl in Hom.
  rewrite (tensor_index_wrap ms k) by (by rewrite Hom).
  by rewrite Hom.
Qed.

(** Under the invariant an index of [-n, n) is answered. *)
Lemma getitem_valid d s b ids om idx :
  holds d s b ids om →
  aligned b ids om →
  - Z.of_nat (length ids) ≤ idx < Z.of_nat (length ids) →
  ∃ m, item_of b ids om idx = Some m ∧
       SentenceComplexityDataset_getitem d idx s
       = (inr (length s), s ++ [ODict m]).
Proof.
  intros Hh Ha Hidx.
  destruct (item_of_in_range b ids om idx Ha Hidx) as [m Hm].
  exists m. split; [done|]. by eapply getitem_run.
Qed.

(** Whatever the index, [__getitem__] either appends one dict to the store
    or raises [IndexError]. *)
Lemma getitem_outcome d s b ids om idx :
  holds d s b ids om →
  (∃ m, item_of b ids om idx = Some m ∧
        SentenceComplexityDataset_getitem d idx s
        = (inr (length s), s ++ [ODict m])) ∨
  (∃ s', item_of b ids om idx = None ∧
         SentenceComplexityDataset_getitem d idx s = (inl IndexError, s') ∧
         (s' = s ∨ ∃ m, s' = s ++ [ODict m])).
Proof.
  intros Hh. destruct (item_of b ids om idx) as [m|] eqn:Hm.
  - left. exists m. split; [done|]. by eapply getitem_run.
  - right. destruct (getitem_fail d s b ids om idx Hh Hm) as (s' & Hs' & Hfr).
    by exists s'.
Qed.

(** The entries of the item dict. *)
Lemma item_of_id b ids om idx m :
  item_of b ids om idx = Some m →
  ∃ x, tensor_index ids idx = Some x ∧ m !! "id" = Some (VElt x).
Proof.
  unfold item_of. intros H.
  destruct (slice_rows b idx) as [rows|]; [|done]. simpl in H.
  destruct (tensor_index ids idx) as [x|]; [|done]. simpl in H.
  exists x. split; [done|].
  destruct om as [ms|].
  - destruct (tensor_index ms idx) as [y|]; [|done]. injection H as <-.
    rewrite lookup_insert_ne by done. apply lookup_insert_eq.
  - injection H as <-. apply lookup_insert_eq.
Qed.

Lemma item_of_label_Some b ids ms idx m :
  item_of b ids (Some ms) idx = Some m →
  ∃ y, tensor_index ms idx = Some y ∧ m !! "label" = Some (VElt y).
Proof.
  unfold item_of. intros H.
  destruct (slice_rows b idx) as [rows|]; [|done]. simpl in H.
  destruct (tensor_index ids idx) as [x|]; [|done]. simpl in H.
  destruct (tensor_index ms idx) as [y|]; [|done]. injection H as <-.
  exists y. split; [done|]. apply lookup_insert_eq.
Qed.

Lemma item_of_label_None b ids idx m :
  item_of b ids None idx = Some m →
  m !! "label" = b !! "label" ≫= (λ t, VRow <$> tensor_index t idx).
Proof.
  unfold item_of. intros H.
  destruct (slice_rows b idx) as [rows|] eqn:Hrows; [|done]. simpl in H.
  destruct (tensor_index ids idx) as [x|]; [|done]. injection H as <-.
  rewrite lookup_insert_ne by done. by apply slice_rows_lookup.
Qed.

Lemma item_of_field b ids om idx m k :
  item_of b ids om idx = Some m → k ≠ "id" → k ≠ "label" →
  m !! k = b !! k ≫= (λ t, VRow <$> tensor_index t idx).
Proof.
  unfold item_of. intros H Hk1 Hk2.
  destruct (slice_rows b idx) as [rows|] eqn:Hrows; [|done]. simpl in H.
  destruct (tensor_index ids idx) as [x|]; [|done]. simpl in H.
  destruct om as [ms|].
  - destruct (tensor_index ms idx) as [y|]; [|done]. injection H as <-.
    rewrite !lookup_insert_ne by done. by apply slice_rows_lookup.
  - injection H as <-.
    rewrite lookup_insert_ne by done. by apply slice_rows_lookup.
Qed.

End Containers.

Section Adapter.

Context {elt D : Type} `{!Dataset elt D}.
Implicit Types (w : D) (s : store elt) (m : gmap string (value elt)).

(** The adapter returns the very dict the wrapped dataset returned, with the
    ["id"] entry deleted in place. *)
Lemma finetuning_getitem_run w idx s l s0 m :
  getitem w idx s = (inr l, s0) →
  s0 !! l = Some (ODict m) →
  getitem {| self_dataset := w |} idx s
  = (inr l, <[l := ODict (delete "id" m)]> s0).
Proof.
  intros Hw Hl. simpl.
  unfold SentenceComplexityFinetuningDataset_getitem. munfold. simpl.
  rewrite Hw. unfold dict_pop. by rewrite Hl.
Qed.

(** An exception of the wrapped dataset passes through unchanged. *)
Lemma finetuning_getitem_fail w idx s e s0 :
  getitem w idx s = (inl e, s0) →
  getitem {| self_dataset := w |} idx s = (inl e, s0).
Proof.
  intros Hw. simpl.
  unfold SentenceComplexityFinetuningDataset_getitem. munfold. simpl.
  by rewrite Hw.
Qed.

End Adapter.

Section AdapterOverPrimary.

Context {scalar elt : Type}.
Implicit Types (d : SentenceComplexityDataset scalar) (s : store elt).
Implicit Types (b : BatchEncoding) (ids : list elt) (om : option (list elt)).

(** The adapter around a primary container: the new dict of the wrapped
    call, without its ["id"] entry, is all that is added to the store. *)
Lemma finetuning_primary_run d s b ids om idx m :
  holds d s b ids om →
  item_of b ids om idx = Some m →
  getitem (elt := elt) {| self_dataset := d |} idx s
  = (inr (length s), s ++ [ODict (delete "id" m)]).
Proof.
  intros Hh Hm.
  erewrite finetuning_getitem_run.
  - by rewrite insert_snoc.
  - simpl. by eapply getitem_run.
  - apply lookup_snoc_new.
Qed.

Lemma finetuning_primary_outcome d s b ids om idx :
  holds d s b ids om →
  (∃ m, item_of b ids om idx = Some m ∧
        getitem (elt := elt) {| self_dataset := d |} idx s
        = (inr (length s), s ++ [ODict (delete "id" m)])) ∨
  (∃ s', item_of b ids om idx = None ∧
         getitem (elt := elt) d idx s = (inl IndexError, s') ∧
         getitem (elt := elt) {| self_dataset := d |} idx s = (inl IndexError, s') ∧
         (s' = s ∨ ∃ m, s' = s ++ [ODict m])).
Proof.
  intros Hh. destruct (getitem_outcome d s b ids om idx Hh)
    as [(m & Hm & Hrun) | (s' & Hnone & Hrun & Hs')].
  - left. exists m. split; [done|]. by eapply finetuning_primary_run.
  - right. exists s'. repeat split; try done.
    by apply finetuning_getitem_fail.
Qed.

(** No operation of either container changes what the primary container
    holds. *)
Lemma len_keeps d s b ids om r s' :
  holds d s b ids om → len (elt := elt) d s = (r, s') → holds d s' b ids om.
Proof.
  intros Hh. simpl. rewrite (len_run d s b ids om Hh). by intros [= _ <-].
Qed.

Lemma getitem_keeps d s b ids om idx r s' :
  holds d s b ids om → getitem (elt := elt) d idx s = (r, s') → holds d s' b ids om.
Proof.
  intros Hh. simpl.
  destruct (getitem_outcome d s b ids om idx Hh)
    as [(m & _ & ->) | (s0 & _ & -> & Hs0)]; intros [= _ <-].
  - by apply holds_snoc.
  - destruct Hs0 as [-> | [m ->]]; [done | by apply holds_snoc].
Qed.

Lemma finetuning_getitem_keeps d s b ids om idx r s' :
  holds d s b ids om →
  getitem (elt := elt) {| self_dataset := d |} idx s = (r, s') →
  holds d s' b ids om.
Proof.
  intros Hh.
  destruct (finetuning_primary_outcome d s b ids om idx Hh)
    as [(m & _ & ->) | (s0 & _ & _ & -> & Hs0)]; intros [= _ <-].
  - by apply holds_snoc.
  - destruct Hs0 as [-> | [m ->]]; [done | by apply holds_snoc].
Qed.

End AdapterOverPrimary.

Section Construction.

Context {scalar elt : Type}.
Variable Tensor_elt : scalar → elt.
Implicit Types (s : store elt) (data : gmap string (pyobj scalar)).

Lemma mapM_num_of_Num (v : list scalar) : mapM num_of (Num <$> v) = Some v.
Proof.
  induction v as [|x v IH]; [done|].
  rewrite fmap_cons. cbn [mapM num_of]. by rewrite IH.
Qed.

Lemma Tensor_run (v : list scalar) s :
  Tensor Tensor_elt (PList (Num <$> v)) s
  = (inr (length s), s ++ [OTensor (Tensor_elt <$> v)]).
Proof.
  unfold Tensor. munfold. by rewrite mapM_num_of_Num.
Qed.

Lemma init_with_mos data st (ids ms : list scalar) s :
  data !! "st" = Some st →
  data !! "id" = Some (PList (Num <$> ids)) →
  data !! "mos" = Some (PList (Num <$> ms)) →
  SentenceComplexityDataset_init Tensor_elt data s
  = (inr {| self_st := st; self_id := length s; self_mos := Some (S (length s)) |},
     s ++ [OTensor (Tensor_elt <$> ids); OTensor (Tensor_elt <$> ms)]).
Proof.
  intros Hst Hid Hmos. unfold SentenceComplexityDataset_init. munfold.
  rewrite Hst, Hid. rewrite Tensor_run.
  unfold try_except_KeyError. munfold. rewrite Hmos, Tensor_run.
  rewrite length_app, <- app_assoc. simpl. by rewrite Nat.add_1_r.
Qed.

Lemma init_without_mos data st (ids : list scalar) s :
  data !! "st" = Some st →
  data !! "id" = Some (PList (Num <$> ids)) →
  data !! "mos" = None →
  SentenceComplexityDataset_init Tensor_elt data s
  = (inr {| self_st := st; self_id := length s; self_mos := None |},
     s ++ [OTensor (Tensor_elt <$> ids)]).
Proof.
  intros Hst Hid Hmos. unfold SentenceComplexityDataset_init. munfold.
  rewrite Hst, Hid. rewrite Tensor_run.
  unfold try_except_KeyError. munfold. by rewrite Hmos.
Qed.

Lemma Tensor_list (xs : list (cell scalar)) s :
  Tensor Tensor_elt (PList xs) s
  = match mapM num_of xs with
    | Some v => (inr (length s), s ++ [OTensor (Tensor_elt <$> v)])
    | None => (inl (list_error xs), s)
    end.
Proof. unfold Tensor. munfold. by destruct (mapM num_of xs). Qed.

(** Every way [__init__] can go on a dict that has its two required
    entries. *)
Lemma init_eval data st (c : list (cell scalar)) s :
  data !! "st" = Some st →
  data !! "id" = Some (PList c) →
  SentenceComplexityDataset_init Tensor_elt data s
  = match mapM num_of c with
    | None => (inl (list_error c), s)
    | Some v =>
        let s1 := s ++ [OTensor (Tensor_elt <$> v)] in
        match data !! "mos" with
        | None => (inr {| self_st := st; self_id := length s; self_mos := None |}, s1)
        | Some (PRef _) => (inl ValueError, s1)
        | Some (PList cm) =>
            match mapM num_of cm with
            | None => (inl (list_error cm), s1)
            | Some w =>
                (inr {| self_st := st; self_id := length s;
                        self_mos := Some (S (length s)) |},
                 s ++ [OTensor (Tensor_elt <$> v); OTensor (Tensor_elt <$> w)])
            end
        end
    end.
Proof.
  intros Hst Hid. unfold SentenceComplexityDataset_init. munfold.
  rewrite Hst, Hid, Tensor_list.
  destruct (mapM num_of c) as [v|]; [|done].
  unfold try_except_KeyError. munfold. simpl.
  destruct (data !! "mos") as [[cm|l]|]; [| done | done].
  rewrite Tensor_list. destruct (mapM num_of cm) as [w|];
    [|by destruct cm as [|[?|?] ?]].
  rewrite length_app, <- app_assoc. simpl. by rewrite Nat.add_1_r.
Qed.

End Construction.

Section Loading.

Context {scalar elt : Type}.
Variable Tensor_elt : scalar → elt.
Variable BertTokenizer_from_pretrained :
  string → exn + (list (cell scalar) → exn + BatchEncoding).
Variable read_csv : string → exn + DataFrame scalar.
Implicit Types (s : store elt) (df : DataFrame scalar).

Local Abbreviation load_dataset :=
  (get_dataset Tensor_elt BertTokenizer_from_pretrained read_csv).

Lemma tokenize_sentences_run sents model tok b s :
  BertTokenizer_from_pretrained model = inr tok →
  tok sents = inr b →
  tokenize_sentences BertTokenizer_from_pretrained sents model s
  = (inr (PRef (length s)), s ++ [OBatch b]).
Proof.
  intros Hm Ht. unfold tokenize_sentences. munfold. by rewrite Hm, Ht.
Qed.

(** Loading a CSV that has a non-empty [MOS] column. *)
Lemma get_dataset_with_mos path model df (ids ms : list scalar) sents tok b s :
  read_csv path = inr df →
  df !! "sent_id" = Some (Num <$> ids) →
  df !! "sentence" = Some sents →
  df !! "MOS" = Some (Num <$> ms) →
  ms ≠ [] →
  BertTokenizer_from_pretrained model = inr tok →
  tok sents = inr b →
  load_dataset path model s
  = (inr {| self_st := PRef (length s); self_id := S (length s);
            self_mos := Some (S (S (length s))) |},
     s ++ [OBatch b; OTensor (Tensor_elt <$> ids); OTensor (Tensor_elt <$> ms)]).
Proof.
  intros Hcsv Hid Hsent Hmos Hne Hm Ht.
  unfold get_dataset. munfold. rewrite Hcsv, Hid, Hsent.
  unfold try_except_KeyError. munfold. rewrite Hmos.
  rewrite (tokenize_sentences_run _ _ _ _ _ Hm Ht).
  destruct ms as [|x ms]; [done|]. simpl truthy. cbv iota. simpl default.
  erewrite (init_with_mos Tensor_elt _ (PRef (length s)) ids (x :: ms)).
  - rewrite length_app, <- app_assoc. simpl. by rewrite Nat.add_1_r.
  - rewrite lookup_insert_ne by done. apply lookup_insert_eq.
  - rewrite !lookup_insert_ne by done. apply lookup_singleton_eq.
  - apply lookup_insert_eq.
Qed.

(** Loading a CSV whose [MOS] column is missing or has no rows. *)
Lemma get_dataset_without_mos path model df (ids : list scalar) sents tok b s :
  read_csv path = inr df →
  df !! "sent_id" = Some (Num <$> ids) →
  df !! "sentence" = Some sents →
  df !! "MOS" = None ∨ df !! "MOS" = Some [] →
  BertTokenizer_from_pretrained model = inr tok →
  tok sents = inr b →
  load_dataset path model s
  = (inr {| self_st := PRef (length s); self_id := S (length s);
            self_mos := None |},
     s ++ [OBatch b; OTensor (Tensor_elt <$> ids)]).
Proof.
  intros Hcsv Hid Hsent Hmos Hm Ht.
  unfold get_dataset. munfold. rewrite Hcsv, Hid, Hsent.
  unfold try_except_KeyError. munfold.
  assert (Hinit : ∀ s',
    SentenceComplexityDataset_init Tensor_elt
      (<["st" := PRef (length s)]> {["id" := PList (Num <$> ids)]}) s'
    = (inr {| self_st := PRef (length s); self_id := length s';
              self_mos := None |},
       s' ++ [OTensor (Tensor_elt <$> ids)])).
  { intros s'. apply init_without_mos.
    - apply lookup_insert_eq.
    - rewrite lookup_insert_ne by done. apply lookup_singleton_eq.
    - rewrite lookup_insert_ne by done. by apply lookup_singleton_ne. }
  destruct Hmos as [-> | ->];
    rewrite (tokenize_sentences_run _ _ _ _ _ Hm Ht); simpl truthy; cbv iota;
    rewrite Hinit, length_app, <- app_assoc; simpl; by rewrite Nat.add_1_r.
Qed.

(** A successful load, read backwards. *)
Lemma get_dataset_inv path model s d s1 :
  load_dataset path model s = (inr d, s1) →
  ∃ df c sents tok b v om,
    read_csv path = inr df ∧
    df !! "sent_id" = Some c ∧ mapM num_of c = Some v ∧
    df !! "sentence" = Some sents ∧
    BertTokenizer_from_pretrained model = inr tok ∧
    tok sents = inr b ∧
    match om with
    | Some w => ∃ cm, df !! "MOS" = Some cm ∧ mapM num_of cm = Some w
    | None => True
    end ∧
    d = {| self_st := PRef (length s); self_id := S (length s);
           self_mos := match om with Some _ => Some (S (S (length s))) | None => None end |} ∧
    s1 = s ++ [OBatch b; OTensor (Tensor_elt <$> v)]
           ++ match om with Some w => [OTensor (Tensor_elt <$> w)] | None => [] end.
Proof.
  unfold get_dataset. munfold.
  destruct (read_csv path) as [e|df] eqn:Hcsv; [done|].
  destruct (df !! "sent_id") as [c|] eqn:Hid; [|done].
  destruct (df !! "sentence") as [sents|] eqn:Hsent; [|done].
  unfold try_except_KeyError, tokenize_sentences. munfold.
  destruct (BertTokenizer_from_pretrained model) as [e|tok] eqn:Hm;
    [by destruct (df !! "MOS")|].
  destruct (tok sents) as [e|b] eqn:Ht; [by destruct (df !! "MOS")|].
  assert (Hst : ∀ (dm : gmap string (pyobj scalar)) x,
    dm = <["st" := x]> {["id" := PList c]} ∨
    (∃ y, dm = <["mos" := y]> (<["st" := x]> {["id" := PList c]})) →
    dm !! "st" = Some x ∧ dm !! "id" = Some (PList c)).
  { intros dm x [-> | [y ->]].
    - split; [apply lookup_insert_eq|].
      rewrite lookup_insert_ne by done. apply lookup_singleton_eq.
    - split.
      + rewrite lookup_insert_ne by done. apply lookup_insert_eq.
      + rewrite !lookup_insert_ne by done. apply lookup_singleton_eq. }
  assert (Hno : (<["st" := PRef (length s)]> {["id" := PList c]}
                   : gmap string (pyobj scalar)) !! "mos" = None).
  { rewrite lookup_insert_ne by done. by apply lookup_singleton_ne. }
  destruct (df !! "MOS") as [[|y cm]|] eqn:Hmos; simpl truthy; cbv iota;
    cbn beta iota; simpl default;
    (erewrite init_eval; [| eapply Hst; eauto ..]);
    destruct (mapM num_of c) as [v|] eqn:Hv; try done; cbn zeta.
  - rewrite Hno. intros [= <- <-].
    exists df, c, sents, tok, b, v, None.
    rewrite length_app, <- app_assoc. simpl. rewrite Nat.add_1_r. done.
  - rewrite lookup_insert_eq.
    destruct (mapM num_of (y :: cm)) as [w|] eqn:Hw; [|done].
    intros [= <- <-].
    exists df, c, sents, tok, b, v, (Some w).
    rewrite length_app, <- app_assoc. simpl. rewrite Nat.add_1_r.
    repeat split; eauto.
  - rewrite Hno. intros [= <- <-].
    exists df, c, sents, tok, b, v, None.
    rewrite length_app, <- app_assoc. simpl. rewrite Nat.add_1_r. done.
Qed.

(** What the loaded container holds, also after later allocations. *)
Lemma holds_loaded s b (v : list elt) om t :
  holds (scalar := scalar)
    {| self_st := PRef (length s); self_id := S (length s);
       self_mos := match om with Some _ => Some (S (S (length s))) | None => None end |}
    (s ++ [OBatch b; OTensor v] ++ match om with Some w => [OTensor w] | None => [] end ++ t)
    b v om.
Proof.
  unfold holds, batch_of, ids_of, mos_of. simpl.
  rewrite list_lookup_middle by done.
  replace (s ++ OBatch b :: OTensor v :: (match om with Some w => [OTensor w] | None => [] end ++ t))
    with ((s ++ [OBatch b]) ++ OTensor v :: (match om with Some w => [OTensor w] | None => [] end ++ t))
    by (by rewrite <- app_assoc).
  rewrite list_lookup_middle by (rewrite length_app; simpl; lia).
  repeat split. destruct om as [w|]; [|done]. simpl.
  replace ((s ++ [OBatch b]) ++ OTensor v :: OTensor w :: t)
    with ((s ++ [OBatch b; OTensor v]) ++ OTensor w :: t)
    by (by rewrite <- !app_assoc).
  rewrite list_lookup_middle by (rewrite length_app; simpl; lia). done.
Qed.

End Loading.

(** * The loader *)

Section LoaderClaims.

Context {scalar elt : Type}.
Variable Tensor_elt : scalar → elt.
Variable BertTokenizer_from_pretrained :
  string → exn + (list (cell scalar) → exn + BatchEncoding).
Variable read_csv : string → exn + DataFrame scalar.
Implicit Types (s t : store elt) (df : DataFrame scalar).

Local Abbreviation load_dataset :=
  (get_dataset Tensor_elt BertTokenizer_from_pretrained read_csv).

(** C1: for a CSV of n rows with numeric [sent_id], [sentence] and [MOS]
    columns, [get_dataset] returns a container whose length is n and whose
    item at every index i < n maps ["id"] to the tensor element of row i's
    [sent_id] and ["label"] to the tensor element of row i's [MOS]; for a
    CSV without the [MOS] column (and a tokenizer with no ["label"] field)
    no item has a ["label"] key.  The items are those of the store the
    loader leaves, and of any store that later allocations extend it to. *)
Theorem get_dataset_items path model df (ids : list scalar) sents tok b s :
  read_csv path = inr df →
  df !! "sent_id" = Some (Num <$> ids) →
  df !! "sentence" = Some sents →
  length sents = length ids →
  BertTokenizer_from_pretrained model = inr tok →
  tok sents = inr b →
  map_Forall (λ _ rows, length rows = length sents) b →
  (∀ ms, df !! "MOS" = Some (Num <$> ms) → length ms = length ids →
     ∃ d s1, load_dataset path model s = (inr d, s1) ∧
       ∀ t, len d (s1 ++ t) = (inr (length ids), s1 ++ t) ∧
         ∀ (i : nat) x y, ids !! i = Some x → ms !! i = Some y →
           ∃ l s2 m, getitem d (Z.of_nat i) (s1 ++ t) = (inr l, s2) ∧
             s2 !! l = Some (ODict m) ∧
             m !! "id" = Some (VElt (Tensor_elt x)) ∧
             m !! "label" = Some (VElt (Tensor_elt y))) ∧
  (df !! "MOS" = None → b !! "label" = None →
     ∃ d s1, load_dataset path model s = (inr d, s1) ∧
       ∀ t, len d (s1 ++ t) = (inr (length ids), s1 ++ t) ∧
         ∀ (i : nat) x, ids !! i = Some x →
           ∃ l s2 m, getitem d (Z.of_nat i) (s1 ++ t) = (inr l, s2) ∧
             s2 !! l = Some (ODict m) ∧
             m !! "id" = Some (VElt (Tensor_elt x)) ∧
             m !! "label" = None).
Proof.
  intros Hcsv Hid Hsent Hlen Hm Ht Hb.
  assert (Hin : ∀ (i : nat) x, ids !! i = Some x →
            - Z.of_nat (length (Tensor_elt <$> ids)) ≤ Z.of_nat i
              < Z.of_nat (length (Tensor_elt <$> ids))).
  { intros i x Hi. apply lookup_lt_Some in Hi. rewrite length_fmap. lia. }
  assert (Hb' : map_Forall (λ _ rows, length rows = length (Tensor_elt <$> ids)) b).
  { rewrite length_fmap, <- Hlen. done. }
  split.
  - intros ms Hmos Hlms.
    destruct (decide (length ms = 0%nat)) as [Hz | Hnz].
    + apply length_zero_iff_nil in Hz as ->.
      (* no rows: the empty MOS list is dropped, and there is no index *)
      eexists _, _. split.
      { eapply get_dataset_without_mos; eauto. }
      intros t. pose proof (holds_loaded (scalar := scalar) s b
                              (Tensor_elt <$> ids) None t) as Hh.
      simpl in Hh. rewrite <- app_assoc. simpl. split.
      { erewrite (len_run (elt := elt)) by exact Hh. by rewrite length_fmap. }
      intros i x y Hi. destruct ids; simpl in Hlms; [done | lia].
    + eexists _, _. split.
      { eapply get_dataset_with_mos; eauto. by intros ->. }
      intros t. pose proof (holds_loaded (scalar := scalar) s b
                              (Tensor_elt <$> ids) (Some (Tensor_elt <$> ms)) t) as Hh.
      simpl in Hh. rewrite <- app_assoc. simpl. split.
      { erewrite (len_run (elt := elt)) by exact Hh. by rewrite length_fmap. }
      intros i x y Hi Hy.
      assert (Ha : aligned b (Tensor_elt <$> ids) (Some (Tensor_elt <$> ms))).
      { split; [done|]. simpl. by rewrite !length_fmap. }
      destruct (getitem_valid _ _ _ _ _ _ Hh Ha (Hin i x Hi)) as (m & Hitem & Hrun).
      eexists _, _, m. split; [exact Hrun|]. split; [apply lookup_snoc_new|].
      destruct (item_of_id _ _ _ _ _ Hitem) as (x' & Hx' & Hmid).
      destruct (item_of_label_Some _ _ _ _ _ Hitem) as (y' & Hy' & Hml).
      rewrite tensor_index_nonneg, list_lookup_fmap, Hi in Hx'.
      rewrite tensor_index_nonneg, list_lookup_fmap, Hy in Hy'.
      simpl in Hx', Hy'. injection Hx' as <-. injection Hy' as <-. done.
  - intros Hmos Hnolabel.
    eexists _, _. split.
    { eapply get_dataset_without_mos; eauto. }
    intros t. pose proof (holds_loaded (scalar := scalar) s b
                            (Tensor_elt <$> ids) None t) as Hh.
    simpl in Hh. rewrite <- app_assoc. simpl. split.
    { erewrite (len_run (elt := elt)) by exact Hh. by rewrite length_fmap. }
    intros i x Hi.
    assert (Ha : aligned b (Tensor_elt <$> ids) None) by (by split).
    destruct (getitem_valid _ _ _ _ _ _ Hh Ha (Hin i x Hi)) as (m & Hitem & Hrun).
    eexists _, _, m. split; [exact Hrun|]. split; [apply lookup_snoc_new|].
    destruct (item_of_id _ _ _ _ _ Hitem) as (x' & Hx' & Hmid).
    rewrite tensor_index_nonneg, list_lookup_fmap, Hi in Hx'.
    simpl in Hx'. injection Hx' as <-. split; [done|].
    rewrite (item_of_label_None _ _ _ _ Hitem), Hnolabel. done.
Qed.

(** C5: a container that [get_dataset] returns satisfies the data-model
    invariant: every field of the tokenized batch has as many rows as the
    identifier vector has entries, and so has the target vector when there
    is one.  This rests on the DataFrame having columns of one length and
    on the tokenizer returning one row per sentence.  [__len__] and
    [__getitem__], called on the container or through the adapter, keep the
    invariant. *)
Theorem loader_invariant path model df s d s1 :
  read_csv path = inr df →
  (∃ n, map_Forall (λ _ col, length col = n) df) →
  (∀ tok sents b, BertTokenizer_from_pretrained model = inr tok →
     tok sents = inr b →
     map_Forall (λ _ rows, length rows = length sents) b) →
  load_dataset path model s = (inr d, s1) →
  inv d s1 ∧
  ∀ s', inv d s' →
    (∀ r s'', len d s' = (r, s'') → inv d s'') ∧
    (∀ idx r s'', getitem d idx s' = (r, s'') → inv d s'') ∧
    (∀ idx r s'', getitem {| self_dataset := d |} idx s' = (r, s'') → inv d s'').
Proof.
  intros Hcsv [n Hn] Htok Hload. split.
  - apply get_dataset_inv in Hload
      as (df' & c & sents & tok & b & v & om & Hcsv' & Hid & Hv & Hsent
          & Hm & Ht & Hmos & -> & ->).
    rewrite Hcsv in Hcsv'. injection Hcsv' as <-.
    exists b, (Tensor_elt <$> v), (fmap (M := list) Tensor_elt <$> om). split.
    + pose proof (holds_loaded (scalar := scalar) s b (Tensor_elt <$> v)
                    (fmap (M := list) Tensor_elt <$> om) []) as Hh.
      rewrite app_nil_r in Hh. by destruct om.
    + assert (Hlv : length v = n).
      { rewrite <- (length_mapM _ _ _ Hv). by apply (Hn _ _ Hid). }
      split.
      * rewrite length_fmap, Hlv, <- (Hn _ _ Hsent). by eapply Htok.
      * destruct om as [w|]; [|done]. simpl.
        destruct Hmos as (cm & Hcm & Hw).
        rewrite !length_fmap, Hlv, <- (length_mapM _ _ _ Hw).
        by apply (Hn _ _ Hcm).
  - intros s' (b & ids & om & Hh & Ha). repeat split.
    + intros r s'' Hr. exists b, ids, om. split; [|done]. by eapply len_keeps.
    + intros idx r s'' Hr. exists b, ids, om. split; [|done].
      by eapply getitem_keeps.
    + intros idx r s'' Hr. exists b, ids, om. split; [|done].
      by eapply finetuning_getitem_keeps.
Qed.

(** C6: when the CSV has no [sent_id] column or no [sentence] column,
    [get_dataset] ends in the [KeyError] of the column lookup: nothing
    catches it, whatever the tokenizer would have done, and the store is
    as it was. *)
Theorem get_dataset_missing_column_fails path model df s :
  read_csv path = inr df →
  df !! "sent_id" = None ∨ df !! "sentence" = None →
  load_dataset path model s = (inl KeyError, s).
Proof.
  intros Hcsv Hmiss. unfold get_dataset. munfold. rewrite Hcsv.
  destruct (df !! "sent_id") as [c|] eqn:Hid; [|done].
  destruct Hmiss as [?| ->]; done.
Qed.

End LoaderClaims.

(** * The constructor *)

Section ConstructorClaims.

Context {scalar elt : Type}.
Variable Tensor_elt : scalar → elt.
Implicit Types (s : store elt) (data : gmap string (pyobj scalar)).

(** C7: given a dict with the tokenized batch under ["st"] and a list of
    numbers under ["id"], [__init__] returns a container in both cases:
    with a list of numbers under ["mos"] the targets are the tensor of that
    list, and without a ["mos"] entry the targets are [None] and no error
    is raised. *)
Theorem init_tolerates_missing_mos data st (ids : list scalar) s :
  data !! "st" = Some st →
  data !! "id" = Some (PList (Num <$> ids)) →
  (∀ ms, data !! "mos" = Some (PList (Num <$> ms)) →
     ∃ d s', SentenceComplexityDataset_init Tensor_elt data s = (inr d, s') ∧
       self_st d = st ∧
       ids_of d s' = Some (Tensor_elt <$> ids) ∧
       mos_of d s' = Some (Some (Tensor_elt <$> ms))) ∧
  (data !! "mos" = None →
     ∃ d s', SentenceComplexityDataset_init Tensor_elt data s = (inr d, s') ∧
       self_st d = st ∧
       ids_of d s' = Some (Tensor_elt <$> ids) ∧
       self_mos d = None ∧ mos_of d s' = Some None).
Proof.
  intros Hst Hid. split.
  - intros ms Hmos. eexists _, _. split.
    { by apply init_with_mos. }
    unfold ids_of, mos_of. simpl. split; [done|].
    rewrite list_lookup_middle by done.
    replace (s ++ [OTensor (Tensor_elt <$> ids); OTensor (Tensor_elt <$> ms)])
      with ((s ++ [OTensor (Tensor_elt <$> ids)]) ++ [OTensor (Tensor_elt <$> ms)])
      by (by rewrite <- app_assoc).
    rewrite list_lookup_middle by (rewrite length_app; simpl; lia). done.
  - intros Hmos. eexists _, _. split.
    { by apply init_without_mos. }
    unfold ids_of, mos_of. simpl. by rewrite lookup_snoc_new.
Qed.

End ConstructorClaims.

(** * The two containers *)

Section ContainerClaims.

Context {scalar elt : Type}.
Implicit Types (d : SentenceComplexityDataset scalar) (s : store elt).
Implicit Types (b : BatchEncoding) (ids : list elt) (om : option (list elt)).
Implicit Types (m : gmap string (value elt)) (idx : Z).

(** C2: the adapter around a primary container has the length of that
    container, and at every index the container answers, its item is the
    container's item with the ["id"] entry removed and every other entry as
    it was.  Removing an entry that is not there is not an error: for any
    wrapped dataset whose item has no ["id"] entry (the adapter wrapped once
    more, for one), the adapter returns that item as it is. *)
Theorem finetuning_strips_id d s b ids om idx :
  holds d s b ids om →
  aligned b ids om →
  - Z.of_nat (length ids) ≤ idx < Z.of_nat (length ids) →
  let a := {| self_dataset := d |} in
  len a s = len d s ∧
  (∃ l m s0 s1,
     getitem d idx s = (inr l, s0) ∧ s0 !! l = Some (ODict m) ∧
     getitem a idx s = (inr l, s1) ∧ s1 !! l = Some (ODict (delete "id" m)) ∧
     delete "id" m !! "id" = None ∧
     (∀ k, k ≠ "id" → delete "id" m !! k = m !! k) ∧
     getitem {| self_dataset := a |} idx s = (inr l, s1)) ∧
  (∀ (D : Type) (HD : Dataset elt D) (w : D) i t l t0 m,
     getitem w i t = (inr l, t0) → t0 !! l = Some (ODict m) →
     m !! "id" = None →
     getitem {| self_dataset := w |} i t = (inr l, t0)).
Proof.
  intros Hh Ha Hidx a.
  assert (Habsent : ∀ (D : Type) (HD : Dataset elt D) (w : D) i
            (t : store elt) l t0 m,
            getitem w i t = (inr l, t0) → t0 !! l = Some (ODict m) →
            m !! "id" = None →
            getitem {| self_dataset := w |} i t = (inr l, t0)).
  { intros D HD w i t l t0 m Hw Hl Hno.
    rewrite (finetuning_getitem_run w i t l t0 m Hw Hl).
    rewrite delete_id by done. by rewrite list_insert_id. }
  split; [done|]. split; [|exact Habsent].
  destruct (getitem_valid d s b ids om idx Hh Ha Hidx) as (m & Hm & Hrun).
  pose proof (finetuning_primary_run d s b ids om idx m Hh Hm) as Hrun'.
  exists (length s), m, (s ++ [ODict m]), (s ++ [ODict (delete "id" m)]).
  repeat split.
  - exact Hrun.
  - apply lookup_snoc_new.
  - exact Hrun'.
  - apply lookup_snoc_new.
  - apply lookup_delete_eq.
  - intros k Hk. by apply lookup_delete_ne.
  - eapply Habsent; [exact Hrun' | apply lookup_snoc_new | apply lookup_delete_eq].
Qed.

(** C3, as the code has it: for both containers a 64-bit index outside
    [-length(), length()) raises [IndexError], so in particular
    [item_at(length())] does, and [item_at(-1)] does when the container
    is empty.  The failure is that call's alone: every stored object is as
    it was, the container holds what it held, and the indices it answers
    are answered afterwards as well. *)
Theorem item_at_out_of_range d s b ids om idx :
  holds d s b ids om →
  int64 idx →
  idx < - Z.of_nat (length ids) ∨ Z.of_nat (length ids) ≤ idx →
  ∃ s', getitem d idx s = (inl IndexError, s') ∧
        getitem {| self_dataset := d |} idx s = (inl IndexError, s') ∧
        (∀ l o, s !! l = Some o → s' !! l = Some o) ∧
        holds d s' b ids om ∧
        (aligned b ids om →
         ∀ jdx, - Z.of_nat (length ids) ≤ jdx < Z.of_nat (length ids) →
           (∃ l s'', getitem d jdx s' = (inr l, s'')) ∧
           (∃ l s'', getitem {| self_dataset := d |} jdx s' = (inr l, s''))).
Proof.
  intros Hh _ Hidx.
  pose proof (item_of_out_of_range b ids om idx Hidx) as Hnone.
  destruct (finetuning_primary_outcome d s b ids om idx Hh)
    as [(m & Hm & _) | (s' & _ & Hrun & Hrun' & Hs')]; [congruence|].
  exists s'. split; [exact Hrun|]. split; [exact Hrun'|].
  assert (Hh' : holds d s' b ids om).
  { destruct Hs' as [-> | [m ->]]; [done | by apply holds_snoc]. }
  split; [|split; [exact Hh'|]].
  - intros l o Hl. destruct Hs' as [-> | [m ->]]; [done|].
    by apply lookup_snoc_old.
  - intros Ha jdx Hj.
    destruct (getitem_valid d s' b ids om jdx Hh' Ha Hj) as (m & Hm & Hr).
    split; [by eauto|].
    rewrite (finetuning_primary_run d s' b ids om jdx m Hh' Hm). eauto.
Qed.

(** C4: at every index a primary container answers, the item carries a
    target score under ["label"] exactly when the container's targets are
    set ([self.mos] is not [None]), whatever the index; when they are set
    the score is the target vector's entry at that index, and when they are
    not (and the batch has no field of that name) the key is absent. *)
Theorem label_iff_targets d s b ids om idx :
  holds d s b ids om →
  aligned b ids om →
  - Z.of_nat (length ids) ≤ idx < Z.of_nat (length ids) →
  ∃ l s' m, getitem d idx s = (inr l, s') ∧ s' !! l = Some (ODict m) ∧
    ((∃ y, m !! "label" = Some (VElt y)) ↔ is_Some (self_mos d)) ∧
    (∀ ms, om = Some ms →
       ∃ y, tensor_index ms idx = Some y ∧ m !! "label" = Some (VElt y)) ∧
    (b !! "label" = None → (is_Some (m !! "label") ↔ is_Some (self_mos d))).
Proof.
  intros Hh Ha Hidx.
  destruct (getitem_valid d s b ids om idx Hh Ha Hidx) as (m & Hm & Hrun).
  exists (length s), (s ++ [ODict m]), m.
  split; [exact Hrun|]. split; [apply lookup_snoc_new|].
  destruct (holds_cells d s b ids om Hh) as (lb & _ & _ & _ & Hmos).
  destruct (self_mos d) as [lm|].
  - destruct Hmos as (ms & -> & _).
    destruct (item_of_label_Some b ids ms idx m Hm) as (y & Hy & Hl).
    repeat split; eauto.
    intros ms' [= <-]. eauto.
  - subst om. pose proof (item_of_label_None b ids idx m Hm) as Hl.
    split; [split|split].
    + intros [y Hy]. rewrite Hy in Hl.
      destruct (b !! "label") as [t|]; simpl in Hl; [|done].
      by destruct (tensor_index t idx).
    + by intros [? ?].
    + done.
    + intros Hb. rewrite Hl, Hb. simpl. split; by intros [? ?].
Qed.

(** C8: at every index the containers answer, asking twice gives equal
    items (two dicts with the same entries), for the primary container and
    for the adapter; after both calls every object that was stored before
    is as it was, and the container holds the batch, identifiers and
    targets it held. *)
Theorem item_at_idempotent d s b ids om idx :
  holds d s b ids om →
  aligned b ids om →
  - Z.of_nat (length ids) ≤ idx < Z.of_nat (length ids) →
  let a := {| self_dataset := d |} in
  (∃ l1 s1 l2 s2 m,
     getitem d idx s = (inr l1, s1) ∧ getitem d idx s1 = (inr l2, s2) ∧
     s1 !! l1 = Some (ODict m) ∧
     s2 !! l1 = Some (ODict m) ∧ s2 !! l2 = Some (ODict m) ∧
     (∀ l o, s !! l = Some o → s2 !! l = Some o) ∧
     holds d s2 b ids om) ∧
  (∃ l1 s1 l2 s2 m,
     getitem a idx s = (inr l1, s1) ∧ getitem a idx s1 = (inr l2, s2) ∧
     s1 !! l1 = Some (ODict m) ∧
     s2 !! l1 = Some (ODict m) ∧ s2 !! l2 = Some (ODict m) ∧
     (∀ l o, s !! l = Some o → s2 !! l = Some o) ∧
     holds d s2 b ids om).
Proof.
  intros Hh Ha Hidx a.
  destruct (item_of_in_range b ids om idx Ha Hidx) as [m Hm].
  split.
  - pose proof (holds_snoc d s b ids om (ODict m) Hh) as Hh1.
    exists (length s), (s ++ [ODict m]),
      (length (s ++ [ODict m])), ((s ++ [ODict m]) ++ [ODict m]), m.
    split; [by eapply getitem_run|]. split; [by eapply getitem_run|].
    split; [apply lookup_snoc_new|].
    split; [apply lookup_snoc_old, lookup_snoc_new|].
    split; [apply lookup_snoc_new|].
    split; [|by apply holds_snoc].
    intros l o Hl. by do 2 apply lookup_snoc_old.
  - set (m' := delete "id" m).
    pose proof (holds_snoc d s b ids om (ODict m') Hh) as Hh1.
    exists (length s), (s ++ [ODict m']),
      (length (s ++ [ODict m'])), ((s ++ [ODict m']) ++ [ODict m']), m'.
    split; [by eapply finetuning_primary_run|].
    split; [by eapply finetuning_primary_run|].
    split; [apply lookup_snoc_new|].
    split; [apply lookup_snoc_old, lookup_snoc_new|].
    split; [apply lookup_snoc_new|].
    split; [|by apply holds_snoc].
    intros l o Hl. by do 2 apply lookup_snoc_old.
Qed.

(** C9: for a primary container of length n >= 1 and 1 <= k <= n,
    [item_at(-k)] does not fail and is [item_at(n - k)]: the row n - k of
    every batch field, the identifier n - k and, when targets are set, the
    target n - k.  The adapter does with index -k whatever the dataset it
    wraps does with it: around this container its item at -k is the
    container's item n - k without the ["id"] entry, which is also its
    item at n - k. *)
Theorem negative_index_wraps d s b ids om (k : Z) :
  holds d s b ids om →
  aligned b ids om →
  1 ≤ k ≤ Z.of_nat (length ids) →
  let a := {| self_dataset := d |} in
  let i := Z.to_nat (Z.of_nat (length ids) - k) in
  getitem d (- k) s = getitem d (Z.of_nat (length ids) - k) s ∧
  (∃ l s' m x,
     getitem d (- k) s = (inr l, s') ∧ s' !! l = Some (ODict m) ∧
     ids !! i = Some x ∧ m !! "id" = Some (VElt x) ∧
     (∀ ms, om = Some ms →
        ∃ y, ms !! i = Some y ∧ m !! "label" = Some (VElt y)) ∧
     (∀ f t, b !! f = Some t → f ≠ "id" → f ≠ "label" →
        ∃ r, t !! i = Some r ∧ m !! f = Some (VRow r))) ∧
  getitem a (- k) s = getitem a (Z.of_nat (length ids) - k) s ∧
  (∃ l m s0 s1,
     getitem d (Z.of_nat (length ids) - k) s = (inr l, s0) ∧
     s0 !! l = Some (ODict m) ∧
     getitem a (- k) s = (inr l, s1) ∧
     s1 !! l = Some (ODict (delete "id" m))) ∧
  (∀ (D : Type) (HD : Dataset elt D) (w : D) (t : store elt),
     getitem w (- k) t = getitem w (Z.of_nat (length ids) - k) t →
     getitem {| self_dataset := w |} (- k) t
     = getitem {| self_dataset := w |} (Z.of_nat (length ids) - k) t).
Proof.
  intros Hh Ha Hk a i.
  assert (Hinherit : ∀ (D : Type) (HD : Dataset elt D) (w : D) (t : store elt),
     getitem w (- k) t = getitem w (Z.of_nat (length ids) - k) t →
     getitem {| self_dataset := w |} (- k) t
     = getitem {| self_dataset := w |} (Z.of_nat (length ids) - k) t).
  { intros D HD w t Hw. simpl.
    unfold SentenceComplexityFinetuningDataset_getitem. munfold. simpl.
    by rewrite Hw. }
  assert (Hnk : Z.of_nat (length ids) - k = Z.of_nat i) by (unfold i; lia).
  assert (Hin : - Z.of_nat (length ids) ≤ - k < Z.of_nat (length ids)) by lia.
  destruct (getitem_valid d s b ids om (- k) Hh Ha Hin) as (m & Hm & Hrun).
  pose proof Hm as Hm'. rewrite (item_of_wrap b ids om k Ha Hk) in Hm'.
  assert (Heq : getitem d (- k) s = getitem d (Z.of_nat (length ids) - k) s).
  { simpl. rewrite Hrun. symmetry. by eapply getitem_run. }
  split; [exact Heq|]. split; [|split; [by apply Hinherit|split; [|exact Hinherit]]].
  - exists (length s), (s ++ [ODict m]), m.
    rewrite Hnk in Hm'.
    destruct (item_of_id _ _ _ _ _ Hm') as (x & Hx & Hid).
    rewrite tensor_index_nonneg in Hx.
    exists x. split; [exact Hrun|]. split; [apply lookup_snoc_new|].
    split; [exact Hx|]. split; [exact Hid|]. split.
    + intros ms ->.
      destruct (item_of_label_Some _ _ _ _ _ Hm') as (y & Hy & Hl).
      rewrite tensor_index_nonneg in Hy. eauto.
    + intros f t Hf Hf1 Hf2.
      pose proof (item_of_field _ _ _ _ _ f Hm' Hf1 Hf2) as Hrow.
      rewrite Hf in Hrow. simpl in Hrow. rewrite tensor_index_nonneg in Hrow.
      destruct Ha as [Hb _].
      destruct (lookup_lt_is_Some_2 t i) as [r Hr].
      { rewrite (Hb f t Hf). unfold i. lia. }
      exists r. split; [done|]. by rewrite Hrow, Hr.
  - exists (length s), m, (s ++ [ODict m]), (s ++ [ODict (delete "id" m)]).
    split; [simpl; by eapply getitem_run|]. split; [apply lookup_snoc_new|].
    split; [by eapply finetuning_primary_run | apply lookup_snoc_new].
Qed.

(** C10: [__getitem__] of the primary container builds a new dict at every
    call, so the dict the adapter strips of its ["id"] entry is at an
    address that was free before the call; every object stored before is as
    it was, the wrapped container holds what it held, and a later
    [item_at] on the wrapped container returns, in yet another dict, the
    item it would have returned without the adapter's call, ["id"]
    included. *)
Theorem adapter_leaves_container_intact d s b ids om idx jdx :
  holds d s b ids om →
  aligned b ids om →
  - Z.of_nat (length ids) ≤ idx < Z.of_nat (length ids) →
  - Z.of_nat (length ids) ≤ jdx < Z.of_nat (length ids) →
  let a := {| self_dataset := d |} in
  ∃ l s1 m,
    getitem a idx s = (inr l, s1) ∧
    s !! l = None ∧ s1 !! l = Some (ODict (delete "id" m)) ∧
    (∀ l' o, s !! l' = Some o → s1 !! l' = Some o) ∧
    holds d s1 b ids om ∧
    ∃ l0 s0 l2 s2 m2,
      getitem d jdx s = (inr l0, s0) ∧ s0 !! l0 = Some (ODict m2) ∧
      getitem d jdx s1 = (inr l2, s2) ∧ s2 !! l2 = Some (ODict m2) ∧
      l2 ≠ l ∧ is_Some (m2 !! "id") ∧
      s2 !! l = Some (ODict (delete "id" m)).
Proof.
  intros Hh Ha Hidx Hjdx a.
  destruct (item_of_in_range b ids om idx Ha Hidx) as [m Hm].
  destruct (item_of_in_range b ids om jdx Ha Hjdx) as [m2 Hm2].
  set (s1 := s ++ [ODict (delete "id" m)]).
  assert (Hh1 : holds d s1 b ids om) by (by apply holds_snoc).
  exists (length s), s1, m.
  split; [by eapply finetuning_primary_run|].
  split; [apply lookup_fresh|]. split; [apply lookup_snoc_new|].
  split; [intros l' o Hl'; by apply lookup_snoc_old|]. split; [exact Hh1|].
  exists (length s), (s ++ [ODict m2]), (length s1), (s1 ++ [ODict m2]), m2.
  split; [by eapply getitem_run|]. split; [apply lookup_snoc_new|].
  split; [by eapply getitem_run|]. split; [apply lookup_snoc_new|].
  split; [unfold s1; rewrite length_app; simpl; lia|].
  split.
  - destruct (item_of_id _ _ _ _ _ Hm2) as (x & _ & Hx). eauto.
  - apply lookup_snoc_old, lookup_snoc_new.
Qed.

End ContainerClaims.

(** * The concrete instance, run *)

Section ExampleFacts.

Import Example.

Lemma example_holds : holds dataset heap batch ids (Some targets).
Proof. repeat split. Qed.

Lemma example_aligned : aligned batch ids (Some targets).
Proof.
  split; [|reflexivity]. unfold batch.
  apply map_Forall_insert_2; [reflexivity|]. by apply map_Forall_singleton.
Qed.

Lemma example_load :
  get_dataset Tensor_elt from_pretrained read_csv
    "train.csv" "bert-base-uncased" [] = (inr dataset, heap).
Proof. vm_compute. reflexivity. Qed.

Lemma example_tokenizer_rows sents b :
  tokenizer sents = inr b →
  map_Forall (λ _ rows, length rows = length sents) b.
Proof.
  unfold tokenizer. destruct (mapM str_of sents) as [ss|] eqn:Hss; [|done].
  intros [= <-]. apply length_mapM in Hss.
  apply map_Forall_insert_2; [by rewrite length_fmap|].
  apply map_Forall_singleton. by rewrite length_fmap.
Qed.

Lemma example_columns :
  map_Forall (λ _ (col : list (cell Q)), length col = 2%nat) train_csv.
Proof.
  unfold train_csv.
  apply map_Forall_insert_2; [reflexivity|].
  apply map_Forall_insert_2; [reflexivity|].
  by apply map_Forall_singleton.
Qed.

End ExampleFacts.

Lemma get_dataset_items_witness :
  ∃ d s1,
    get_dataset Example.Tensor_elt Example.from_pretrained Example.read_csv
      "train.csv" "bert-base-uncased" [] = (inr d, s1) ∧
    len d s1 = (inr 2%nat, s1) ∧
    ∃ l s2 m, getitem d 1 s1 = (inr l, s2) ∧ s2 !! l = Some (ODict m) ∧
      m !! "id" = Some (VElt (2 # 1)%Q) ∧
      m !! "label" = Some (VElt (19 # 4)%Q).
Proof.
  destruct (get_dataset_items Example.Tensor_elt Example.from_pretrained
              Example.read_csv "train.csv" "bert-base-uncased"
              Example.train_csv [1 # 1; 2 # 1]%Q Example.sentences
              Example.tokenizer Example.batch [])
    as [Hmos _]; try reflexivity.
  { apply example_aligned. }
  destruct (Hmos [5 # 2; 19 # 4]%Q eq_refl eq_refl) as (d & s1 & Hload & Hitems).
  exists d, s1. split; [exact Hload|].
  destruct (Hitems []) as [Hlen Hget]. rewrite app_nil_r in Hlen, Hget.
  split; [exact Hlen|].
  exact (Hget 1%nat (2 # 1)%Q (19 # 4)%Q eq_refl eq_refl).
Defined.

Lemma loader_invariant_witness :
  inv Example.dataset Example.heap.
Proof.
  apply (loader_invariant Example.Tensor_elt Example.from_pretrained
           Example.read_csv "train.csv" "bert-base-uncased"
           Example.train_csv [] Example.dataset Example.heap).
  - reflexivity.
  - exists 2%nat. apply example_columns.
  - intros tok sents b [= <-]. apply example_tokenizer_rows.
  - apply example_load.
Defined.

Lemma get_dataset_missing_column_fails_witness :
  get_dataset Example.Tensor_elt Example.from_pretrained Example.read_csv
    "headless.csv" "bert-base-uncased" [] = (inl KeyError, []).
Proof.
  apply (get_dataset_missing_column_fails Example.Tensor_elt
           Example.from_pretrained Example.read_csv "headless.csv"
           "bert-base-uncased" Example.headless_csv []).
  - reflexivity.
  - right. reflexivity.
Defined.

Lemma init_tolerates_missing_mos_witness :
  ∃ d s',
    SentenceComplexityDataset_init Example.Tensor_elt
      (<["st" := PRef 0%nat]> {["id" := PList [Num (1 # 1); Num (2 # 1)]%Q]})
      [OBatch Example.batch] = (inr d, s') ∧
    self_mos d = None.
Proof.
  destruct (init_tolerates_missing_mos Example.Tensor_elt
              (<["st" := PRef 0%nat]> {["id" := PList [Num (1 # 1); Num (2 # 1)]%Q]})
              (PRef 0%nat) [1 # 1; 2 # 1]%Q [OBatch Example.batch])
    as [_ Hnone]; try reflexivity.
  destruct (Hnone eq_refl) as (d & s' & Hrun & _ & _ & Hmos & _).
  exists d, s'. split; [exact Hrun | exact Hmos].
Defined.

Lemma finetuning_strips_id_witness :
  ∃ l m s0 s1,
    getitem Example.dataset 1 Example.heap = (inr l, s0) ∧
    s0 !! l = Some (ODict m) ∧
    getitem {| self_dataset := Example.dataset |} 1 Example.heap = (inr l, s1) ∧
    s1 !! l = Some (ODict (delete "id" m)).
Proof.
  destruct (finetuning_strips_id Example.dataset Example.heap Example.batch
              Example.ids (Some Example.targets) 1
              example_holds example_aligned)
    as (_ & (l & m & s0 & s1 & H1 & H2 & H3 & H4 & _) & _).
  { simpl. lia. }
  exists l, m, s0, s1. repeat split; assumption.
Defined.

(** C3 as stated fails: on a container of length 2, [item_at(-1)] returns
    the last item, from the primary container and from the adapter. *)
Lemma item_at_minus_one_counterexample :
  inv Example.dataset Example.heap ∧
  len Example.dataset Example.heap = (inr 2%nat, Example.heap) ∧
  (∃ m, getitem Example.dataset (-1) Example.heap
        = (inr 3%nat, Example.heap ++ [ODict m]) ∧
        m !! "id" = Some (VElt (2 # 1)%Q)) ∧
  (∃ m, getitem {| self_dataset := Example.dataset |} (-1) Example.heap
        = (inr 3%nat, Example.heap ++ [ODict m])) ∧
  ¬ (∀ (d : SentenceComplexityDataset Q) (s : store Q),
       inv d s → ∃ e s', getitem d (-1) s = (inl e, s')).
Proof.
  assert (Hinv : inv Example.dataset Example.heap).
  { exists Example.batch, Example.ids, (Some Example.targets).
    split; [apply example_holds | apply example_aligned]. }
  split; [exact Hinv|]. split; [reflexivity|].
  split; [eexists; split; [vm_compute; reflexivity | reflexivity]|].
  split; [eexists; vm_compute; reflexivity|].
  intros Hall. destruct (Hall _ _ Hinv) as (e & s' & He).
  vm_compute in He. discriminate He.
Qed.

Lemma item_at_out_of_range_witness :
  ∃ s', getitem Example.dataset 2 Example.heap = (inl IndexError, s') ∧
        getitem {| self_dataset := Example.dataset |} 2 Example.heap
        = (inl IndexError, s').
Proof.
  destruct (item_at_out_of_range Example.dataset Example.heap Example.batch
              Example.ids (Some Example.targets) 2 example_holds)
    as (s' & H1 & H2 & _).
  { unfold int64. lia. }
  { right. simpl. lia. }
  exists s'. split; assumption.
Defined.

Lemma label_iff_targets_witness :
  ∃ l s' m, getitem Example.dataset 0 Example.heap = (inr l, s') ∧
    s' !! l = Some (ODict m) ∧
    ((∃ y, m !! "label" = Some (VElt y)) ↔ is_Some (self_mos Example.dataset)).
Proof.
  destruct (label_iff_targets Example.dataset Example.heap Example.batch
              Example.ids (Some Example.targets) 0
              example_holds example_aligned)
    as (l & s' & m & H1 & H2 & H3 & _).
  { simpl. lia. }
  exists l, s', m. repeat split; try assumption; apply H3.
Defined.

Lemma item_at_idempotent_witness :
  ∃ l1 s1 l2 s2 m,
    getitem Example.dataset 1 Example.heap = (inr l1, s1) ∧
    getitem Example.dataset 1 s1 = (inr l2, s2) ∧
    s2 !! l1 = Some (ODict m) ∧ s2 !! l2 = Some (ODict m).
Proof.
  destruct (item_at_idempotent Example.dataset Example.heap Example.batch
              Example.ids (Some Example.targets) 1
              example_holds example_aligned)
    as ((l1 & s1 & l2 & s2 & m & H1 & H2 & _ & H3 & H4 & _) & _).
  { simpl. lia. }
  exists l1, s1, l2, s2, m. repeat split; assumption.
Defined.

Lemma negative_index_wraps_witness :
  getitem Example.dataset (-1) Example.heap
  = getitem Example.dataset 1 Example.heap ∧
  ∃ l m s0 s1,
    getitem Example.dataset 1 Example.heap = (inr l, s0) ∧
    s0 !! l = Some (ODict m) ∧
    getitem {| self_dataset := Example.dataset |} (-1) Example.heap
    = (inr l, s1) ∧
    s1 !! l = Some (ODict (delete "id" m)).
Proof.
  destruct (negative_index_wraps Example.dataset Example.heap Example.batch
              Example.ids (Some Example.targets) 1
              example_holds example_aligned)
    as (H1 & _ & _ & H2 & _).
  { simpl. lia. }
  split; [exact H1 | exact H2].
Defined.

Lemma adapter_leaves_container_intact_witness :
  ∃ l s1,
    getitem {| self_dataset := Example.dataset |} 0 Example.heap = (inr l, s1) ∧
    holds Example.dataset s1 Example.batch Example.ids (Some Example.targets) ∧
    ∃ l2 s2 m2, getitem Example.dataset 1 s1 = (inr l2, s2) ∧
      s2 !! l2 = Some (ODict m2) ∧ is_Some (m2 !! "id").
Proof.
  destruct (adapter_leaves_container_intact Example.dataset Example.heap
              Example.batch Example.ids (Some Example.targets) 0 1
              example_holds example_aligned)
    as (l & s1 & m & H1 & _ & _ & _ & H2
        & (l0 & s0 & l2 & s2 & m2 & _ & _ & H3 & H4 & _ & H5 & _)).
  { simpl. lia. }
  { simpl. lia. }
  exists l, s1. split; [exact H1|]. split; [exact H2|].
  exists l2, s2, m2. repeat split; try assumption; apply H5.
Defined.

(** * Further properties of the containers *)

#[local] Set Warnings "-clear-no-such-hyp".

Section ItemShape.

Context {scalar elt : Type}.
Implicit Types (d : SentenceComplexityDataset scalar) (s : store elt).
Implicit Types (b : BatchEncoding) (ids : list elt) (om : option (list elt)).
Implicit Types (m : gmap string (value elt)) (idx : Z).

Lemma slice_rows_dom b idx (rows : gmap string (value elt)) :
  slice_rows b idx = Some rows → dom rows = dom b.
Proof.
  unfold slice_rows. case_decide as Hall; [|done]. intros [= <-].
  apply set_eq. intros k. rewrite !elem_of_dom, lookup_omap.
  destruct (b !! k) as [rs|] eqn:Hk; simpl.
  - destruct (Hall k rs Hk) as [r ->]. simpl. split; eauto.
  - split; intros [? ?]; done.
Qed.

Lemma item_of_dom b ids om idx m :
  item_of b ids om idx = Some m →
  dom m = dom b ∪ {["id"]} ∪ (match om with Some _ => {["label"]} | None => ∅ end).
Proof.
  unfold item_of. intros H.
  destruct (slice_rows b idx) as [rows|] eqn:Hrows; [|done]. simpl in H.
  apply slice_rows_dom in Hrows.
  destruct (tensor_index ids idx) as [x|]; [|done]. simpl in H.
  destruct om as [ms|].
  - destruct (tensor_index ms idx) as [y|]; [|done]. injection H as <-.
    rewrite !dom_insert_L, Hrows. set_solver.
  - injection H as <-. rewrite dom_insert_L, Hrows. set_solver.
Qed.

Lemma item_of_is_Some b ids om idx :
  is_Some (item_of b ids om idx) ↔
  map_Forall (λ _ rs, - Z.of_nat (length rs) ≤ idx < Z.of_nat (length rs)) b ∧
  - Z.of_nat (length ids) ≤ idx < Z.of_nat (length ids) ∧
  from_option (λ ms, - Z.of_nat (length ms) ≤ idx < Z.of_nat (length ms)) True om.
Proof.
  unfold item_of. split.
  - intros [m Hm].
    destruct (slice_rows b idx) as [rows|] eqn:Hrows; [|done]. simpl in Hm.
    destruct (tensor_index ids idx) as [x|] eqn:Hx; [|done]. simpl in Hm.
    split; [|split].
    + assert (is_Some (slice_rows (elt := elt) b idx)) as Hs by eauto.
      apply slice_rows_is_Some in Hs. intros k rs Hk.
      apply tensor_index_is_Some. by apply (Hs k rs Hk).
    + apply tensor_index_is_Some. eauto.
    + destruct om as [ms|]; [|done]. simpl.
      destruct (tensor_index ms idx) as [y|] eqn:Hy; [|done].
      apply tensor_index_is_Some. eauto.
  - intros (Hb & Hi & Hom).
    assert (is_Some (slice_rows (elt := elt) b idx)) as [rows ->].
    { apply slice_rows_is_Some. intros k rs Hk.
      apply tensor_index_is_Some. by apply (Hb k rs Hk). }
    apply tensor_index_is_Some in Hi as [x ->]. simpl.
    destruct om as [ms|]; [|by eauto]. simpl in Hom.
    apply tensor_index_is_Some in Hom as [y ->]. simpl. eauto.
Qed.

(** The keys of an item: the fields of the tokenized batch, ["id"], and
    ["label"] when the container has targets.  The adapter's item has the
    same keys but ["id"] -- also when the batch itself has a field of that
    name, which the identifier had replaced. *)
Theorem item_keys d s b ids om idx :
  holds d s b ids om →
  aligned b ids om →
  - Z.of_nat (length ids) ≤ idx < Z.of_nat (length ids) →
  ∃ l s1 s2 m m',
    getitem d idx s = (inr l, s1) ∧ s1 !! l = Some (ODict m) ∧
    dom m = dom b ∪ {["id"]} ∪ (match om with Some _ => {["label"]} | None => ∅ end) ∧
    getitem {| self_dataset := d |} idx s = (inr l, s2) ∧
    s2 !! l = Some (ODict m') ∧
    dom m' = (dom b ∪ (match om with Some _ => {["label"]} | None => ∅ end)) ∖ {["id"]}.
Proof.
  intros Hh Ha Hidx.
  destruct (getitem_valid d s b ids om idx Hh Ha Hidx) as (m & Hm & Hrun).
  exists (length s), (s ++ [ODict m]), (s ++ [ODict (delete "id" m)]),
    m, (delete "id" m).
  split; [exact Hrun|]. split; [apply lookup_snoc_new|].
  pose proof (item_of_dom b ids om idx m Hm) as Hdom.
  split; [exact Hdom|].
  split; [by eapply finetuning_primary_run|]. split; [apply lookup_snoc_new|].
  rewrite dom_delete_L, Hdom. set_solver.
Qed.

(** Without assuming the invariant, for a 64-bit index: [__getitem__]
    returns exactly when the index is within [-k, k) for the size k of every
    batch field, of the identifier vector and of the target vector (when
    there is one); when it is not, the call raises [IndexError]. *)
Theorem getitem_succeeds_iff d s b ids om idx :
  holds d s b ids om →
  int64 idx →
  ((∃ l s', getitem d idx s = (inr l, s')) ↔
   map_Forall (λ _ rs, - Z.of_nat (length rs) ≤ idx < Z.of_nat (length rs)) b ∧
   - Z.of_nat (length ids) ≤ idx < Z.of_nat (length ids) ∧
   from_option (λ ms, - Z.of_nat (length ms) ≤ idx < Z.of_nat (length ms)) True om) ∧
  (¬ (map_Forall (λ _ rs, - Z.of_nat (length rs) ≤ idx < Z.of_nat (length rs)) b ∧
      - Z.of_nat (length ids) ≤ idx < Z.of_nat (length ids) ∧
      from_option (λ ms, - Z.of_nat (length ms) ≤ idx < Z.of_nat (length ms)) True om) →
   ∃ s', getitem d idx s = (inl IndexError, s')).
Proof.
  intros Hh _. rewrite <- item_of_is_Some.
  destruct (getitem_outcome d s b ids om idx Hh)
    as [(m & Hm & Hrun) | (s' & Hnone & Hrun & _)]; simpl; rewrite Hrun.
  - split; [split; eauto|]. intros Hno. destruct Hno. eauto.
  - split; [|by eauto]. rewrite Hnone. split.
    + by intros (l & s'' & [=]).
    + by intros [? ?].
Qed.

End ItemShape.

Section AdapterOverBatch.

Context {elt D : Type} `{!Dataset elt D}.
Implicit Types (w : D) (s : store elt).

(** The adapter on a wrapped dataset that hands out a BatchEncoding. *)
Lemma finetuning_getitem_run_batch w idx s l s0 (b : BatchEncoding) :
  getitem w idx s = (inr l, s0) →
  s0 !! l = Some (OBatch b) →
  getitem {| self_dataset := w |} idx s
  = (inr l, <[l := OBatch (delete "id" b)]> s0).
Proof.
  intros Hw Hl. simpl.
  unfold SentenceComplexityFinetuningDataset_getitem. munfold. simpl.
  rewrite Hw. unfold dict_pop. by rewrite Hl.
Qed.

End AdapterOverBatch.

Section AdapterInGeneral.

Context {elt D : Type} `{!Dataset elt D}.
Implicit Types (w : D) (s : store elt) (m : gmap string (value elt)).

(** A returning adapter call, read backwards. *)
Lemma finetuning_getitem_inv w idx s l s1 :
  getitem {| self_dataset := w |} idx s = (inr l, s1) →
  ∃ s0, getitem w idx s = (inr l, s0) ∧
    ((∃ m, s0 !! l = Some (ODict m) ∧
           s1 = <[l := ODict (delete "id" m)]> s0) ∨
     (∃ b : BatchEncoding, s0 !! l = Some (OBatch b) ∧
           s1 = <[l := OBatch (delete "id" b)]> s0)).
Proof.
  simpl. unfold SentenceComplexityFinetuningDataset_getitem. munfold. simpl.
  destruct (getitem w idx s) as [[e|l0] s0] eqn:Hw; [done|].
  unfold dict_pop.
  destruct (s0 !! l0) as [[m|b|]|] eqn:Hl0; try done;
    intros [= <- <-]; exists s0; (split; [done|]); [left | right]; eauto.
Qed.

(** Whatever the adapter wraps: an exception of the wrapped [__getitem__]
    comes out as it is, with the store as the wrapped call left it; and
    when the adapter returns, it returns the object the wrapped call
    returned -- a dict, or a BatchEncoding, the other stored object with a
    [pop] -- changed in place to have no ["id"] entry, every other stored
    object being as the wrapped call left it. *)
Theorem finetuning_touches_only_its_item w idx s :
  (∀ e s0, getitem w idx s = (inl e, s0) →
     SentenceComplexityFinetuningDataset_getitem {| self_dataset := w |} idx s
     = (inl e, s0)) ∧
  (∀ l s1,
     SentenceComplexityFinetuningDataset_getitem {| self_dataset := w |} idx s
     = (inr l, s1) →
     ∃ s0, getitem w idx s = (inr l, s0) ∧
       length s1 = length s0 ∧
       (∀ l', l' ≠ l → s1 !! l' = s0 !! l') ∧
       ((∃ m, s0 !! l = Some (ODict m) ∧
              s1 !! l = Some (ODict (delete "id" m))) ∨
        (∃ b : BatchEncoding, s0 !! l = Some (OBatch b) ∧
              s1 !! l = Some (OBatch (delete "id" b))))).
Proof.
  split.
  - intros e s0 Hw. by apply finetuning_getitem_fail.
  - intros l s1 (s0 & Hw & Hobj)%finetuning_getitem_inv.
    exists s0. split; [done|].
    destruct Hobj as [(m & Hl & ->) | (b & Hl & ->)].
    + split; [apply length_insert|].
      split; [intros l' Hne; by apply list_lookup_insert_ne|].
      left. exists m. split; [done|].
      apply list_lookup_insert_eq. by eapply lookup_lt_Some.
    + split; [apply length_insert|].
      split; [intros l' Hne; by apply list_lookup_insert_ne|].
      right. exists b. split; [done|].
      apply list_lookup_insert_eq. by eapply lookup_lt_Some.
Qed.

(** Wrapping twice is wrapping once: at every index and in every store the
    adapter around an adapter does what the adapter itself does, result and
    store alike. *)
Theorem finetuning_twice w idx s :
  SentenceComplexityFinetuningDataset_getitem
    {| self_dataset := {| self_dataset := w |} |} idx s
  = SentenceComplexityFinetuningDataset_getitem {| self_dataset := w |} idx s.
Proof.
  change (getitem {| self_dataset := {| self_dataset := w |} |} idx s
          = getitem {| self_dataset := w |} idx s).
  destruct (getitem {| self_dataset := w |} idx s) as [[e|l] s1] eqn:Ha.
  - by apply finetuning_getitem_fail.
  - destruct (finetuning_getitem_inv w idx s l s1 Ha)
      as (s0 & _ & [(m & Hl0 & ->) | (b & Hl0 & ->)]).
    + assert (Hl : <[l := ODict (delete "id" m)]> s0 !! l
                   = Some (ODict (delete "id" m))).
      { apply list_lookup_insert_eq. by eapply lookup_lt_Some. }
      rewrite (finetuning_getitem_run _ idx s l _ _ Ha Hl).
      rewrite delete_delete_eq. by rewrite list_insert_id.
    + assert (Hl : <[l := OBatch (delete "id" b)]> s0 !! l
                   = Some (OBatch (elt := elt) (delete "id" b))).
      { apply list_lookup_insert_eq. by eapply lookup_lt_Some. }
      rewrite (finetuning_getitem_run_batch _ idx s l _ _ Ha Hl).
      rewrite delete_delete_eq. by rewrite list_insert_id.
Qed.

End AdapterInGeneral.

(** * Further properties of the constructor and the loader *)

Section ConstructorInGeneral.

Context {scalar elt : Type}.
Variable Tensor_elt : scalar → elt.
Implicit Types (s : store elt) (data : gmap string (pyobj scalar)).
Implicit Types (b : BatchEncoding).

Lemma holds_grown (d : SentenceComplexityDataset scalar) s b
  (ids : list elt) (om : option (list elt)) (t : store elt) :
  holds d s b ids om → holds d (s ++ t) b ids om.
Proof.
  intros H. induction t as [|o t IH] using rev_ind.
  - by rewrite app_nil_r.
  - rewrite app_assoc. by apply holds_snoc.
Qed.

(** Whatever [__init__] does, it only adds objects to the store. *)
Lemma init_grows data s r s' :
  SentenceComplexityDataset_init Tensor_elt data s = (r, s') →
  ∃ t, s' = s ++ t.
Proof.
  unfold SentenceComplexityDataset_init. munfold.
  destruct (data !! "st") as [st|]; [|intros [= _ <-]; exists []; by rewrite app_nil_r].
  destruct (data !! "id") as [[c|l]|];
    [| intros [= _ <-]; exists []; by rewrite app_nil_r
     | intros [= _ <-]; exists []; by rewrite app_nil_r].
  rewrite Tensor_list.
  destruct (mapM num_of c) as [v|];
    [|intros [= _ <-]; exists []; by rewrite app_nil_r].
  unfold try_except_KeyError. munfold. simpl.
  destruct (data !! "mos") as [[cm|l]|]; [| by intros [= _ <-]; eauto ..].
  rewrite Tensor_list.
  destruct (mapM num_of cm) as [w|];
    [|by destruct cm as [|[?|?] ?]; intros [= _ <-]; eauto].
  intros [= _ <-]. rewrite <- app_assoc. eauto.
Qed.

(** Only the ["mos"] lookup is guarded: without an ["st"] entry or without
    an ["id"] entry [__init__] raises [KeyError] -- with or without a
    ["mos"] entry -- and has stored nothing. *)
Theorem init_requires_st_and_id data s :
  data !! "st" = None ∨ data !! "id" = None →
  SentenceComplexityDataset_init Tensor_elt data s = (inl KeyError, s).
Proof.
  intros Hmiss. unfold SentenceComplexityDataset_init. munfold.
  destruct (data !! "st") as [st|]; [|done].
  destruct Hmiss as [?| ->]; done.
Qed.

(** [__init__] compares no lengths.  Given fewer targets than identifiers
    it returns a container all the same; the container's length is the
    number of identifiers; [item_at] answers the indices that have a target
    and raises [IndexError] at the indices below the length that have
    none. *)
Theorem init_checks_no_lengths data lb b (ids ms : list scalar) s :
  data !! "st" = Some (PRef lb) →
  s !! lb = Some (OBatch b) →
  data !! "id" = Some (PList (Num <$> ids)) →
  data !! "mos" = Some (PList (Num <$> ms)) →
  map_Forall (λ _ rs, length rs = length ids) b →
  (length ms ≤ length ids)%nat →
  ∃ d s1,
    SentenceComplexityDataset_init Tensor_elt data s = (inr d, s1) ∧
    len d s1 = (inr (length ids), s1) ∧
    (∀ i : nat, (i < length ms)%nat →
       ∃ l s2, getitem d (Z.of_nat i) s1 = (inr l, s2)) ∧
    (∀ i : nat, (length ms ≤ i < length ids)%nat →
       ∃ s2, getitem d (Z.of_nat i) s1 = (inl IndexError, s2)).
Proof.
  intros Hst Hlb Hid Hmos Hb Hle.
  eexists _, _. split; [by apply init_with_mos|].
  set (d := {| self_st := PRef lb; self_id := length s;
               self_mos := Some (S (length s)) |}).
  set (s1 := s ++ [OTensor (Tensor_elt <$> ids); OTensor (Tensor_elt <$> ms)]).
  assert (Hh : holds d s1 b (Tensor_elt <$> ids) (Some (Tensor_elt <$> ms))).
  { unfold holds, batch_of, ids_of, mos_of, d, s1. simpl.
    rewrite (lookup_app_l_Some _ _ _ _ Hlb).
    rewrite list_lookup_middle by done.
    replace (s ++ [OTensor (Tensor_elt <$> ids); OTensor (Tensor_elt <$> ms)])
      with ((s ++ [OTensor (Tensor_elt <$> ids)]) ++ [OTensor (Tensor_elt <$> ms)])
      by (by rewrite <- app_assoc).
    rewrite list_lookup_middle by (rewrite length_app; simpl; lia). done. }
  split; [|split].
  - simpl. rewrite (len_run d s1 _ _ _ Hh). by rewrite length_fmap.
  - intros i Hi.
    destruct (proj2 (item_of_is_Some b (Tensor_elt <$> ids)
                       (Some (Tensor_elt <$> ms)) (Z.of_nat i))) as [m Hm].
    { simpl. rewrite !length_fmap. split; [|lia].
      intros k rs Hk. rewrite (Hb k rs Hk). lia. }
    exists (length s1), (s1 ++ [ODict m]). simpl. by eapply getitem_run.
  - intros i Hi.
    destruct (getitem_outcome d s1 _ _ _ (Z.of_nat i) Hh)
      as [(m & Hm & _) | (s2 & _ & Hrun & _)]; [|by eauto].
    assert (is_Some (item_of b (Tensor_elt <$> ids)
                       (Some (Tensor_elt <$> ms)) (Z.of_nat i))) as Hs by eauto.
    apply item_of_is_Some in Hs as (_ & _ & Hms). simpl in Hms.
    rewrite length_fmap in Hms. lia.
Qed.

End ConstructorInGeneral.

Section LoaderInGeneral.

Context {scalar elt : Type}.
Variable Tensor_elt : scalar → elt.
Variable BertTokenizer_from_pretrained :
  string → exn + (list (cell scalar) → exn + BatchEncoding).
Variable read_csv : string → exn + DataFrame scalar.
Implicit Types (s : store elt) (df : DataFrame scalar).

Local Abbreviation load_dataset :=
  (get_dataset Tensor_elt BertTokenizer_from_pretrained read_csv).

(** The errors of the collaborators leave [get_dataset] as they are, a
    [KeyError] among them (the [except KeyError] is around the [MOS] lookup
    only): an error of [pd.read_csv], and, the two required columns being
    there, an error of [BertTokenizer.from_pretrained] or of the tokenizer.
    Nothing has been stored by then. *)
Theorem get_dataset_propagates path model s :
  (∀ e, read_csv path = inl e → load_dataset path model s = (inl e, s)) ∧
  (∀ df c sents e,
     read_csv path = inr df →
     df !! "sent_id" = Some c →
     df !! "sentence" = Some sents →
     BertTokenizer_from_pretrained model = inl e ∨
     (∃ tok, BertTokenizer_from_pretrained model = inr tok ∧ tok sents = inl e) →
     load_dataset path model s = (inl e, s)).
Proof.
  split.
  - intros e Hcsv. unfold get_dataset. munfold. by rewrite Hcsv.
  - intros df c sents e Hcsv Hid Hsent Herr.
    unfold get_dataset. munfold. rewrite Hcsv, Hid, Hsent.
    unfold try_except_KeyError, tokenize_sentences. munfold.
    destruct Herr as [-> | (tok & -> & ->)]; by destruct (df !! "MOS").
Qed.

(** Whatever its outcome, [get_dataset] only adds objects to the store, so
    a container loaded earlier holds afterwards what it held before. *)
Theorem get_dataset_only_allocates path model s r s' :
  load_dataset path model s = (r, s') →
  (∃ t, s' = s ++ t) ∧
  ∀ (d : SentenceComplexityDataset scalar) b ids om,
    holds d s b ids om → holds d s' b ids om.
Proof.
  intros Hload.
  assert (Ht : ∃ t, s' = s ++ t).
  { revert Hload. unfold get_dataset. munfold.
    assert (Hnil : ∃ t, s = s ++ t) by (exists []; by rewrite app_nil_r).
    destruct (read_csv path) as [e|df]; [by intros [= _ <-]|].
    destruct (df !! "sent_id") as [c|]; [|by intros [= _ <-]].
    destruct (df !! "sentence") as [sents|]; [|by intros [= _ <-]].
    unfold try_except_KeyError, tokenize_sentences. munfold.
    destruct (BertTokenizer_from_pretrained model) as [e|tok];
      [by destruct (df !! "MOS"); intros [= _ <-]|].
    destruct (tok sents) as [e|b];
      [by destruct (df !! "MOS"); intros [= _ <-]|].
    destruct (df !! "MOS") as [cm|]; cbn beta iota;
      intros [t ->]%init_grows; rewrite <- app_assoc; eauto. }
  split; [exact Ht|]. destruct Ht as [t ->].
  intros d b ids om Hh. by apply holds_grown.
Qed.

(** The tokenized fields of a loaded item: at every index i below the
    number of rows, and for every field of the tokenizer's output that is
    not named ["id"] or ["label"], the item maps the field to row i of that
    field, with or without a [MOS] column. *)
Theorem loaded_items_carry_tokens path model df (ids : list scalar) sents tok b s :
  read_csv path = inr df →
  df !! "sent_id" = Some (Num <$> ids) →
  df !! "sentence" = Some sents →
  length sents = length ids →
  df !! "MOS" = None ∨
    (∃ ms, df !! "MOS" = Some (Num <$> ms) ∧ length ms = length ids) →
  BertTokenizer_from_pretrained model = inr tok →
  tok sents = inr b →
  map_Forall (λ _ rows, length rows = length sents) b →
  ∃ d s1, load_dataset path model s = (inr d, s1) ∧
    ∀ i : nat, (i < length ids)%nat →
      ∃ l s2 m, getitem d (Z.of_nat i) s1 = (inr l, s2) ∧
        s2 !! l = Some (ODict m) ∧
        ∀ f rows, b !! f = Some rows → f ≠ "id" → f ≠ "label" →
          ∃ r, rows !! i = Some r ∧ m !! f = Some (VRow r).
Proof.
  intros Hcsv Hid Hsent Hlen Hmos Hm Ht Hb.
  assert (Hgen : ∀ (d : SentenceComplexityDataset scalar) s1 om,
    holds d s1 b (Tensor_elt <$> ids) om →
    from_option (λ ms, length ms = length (Tensor_elt <$> ids)) True om →
    ∀ i : nat, (i < length ids)%nat →
      ∃ l s2 m, getitem d (Z.of_nat i) s1 = (inr l, s2) ∧
        s2 !! l = Some (ODict m) ∧
        ∀ f rows, b !! f = Some rows → f ≠ "id" → f ≠ "label" →
          ∃ r, rows !! i = Some r ∧ m !! f = Some (VRow r)).
  { intros d s1 om Hh Hom i Hi.
    assert (Ha : aligned b (Tensor_elt <$> ids) om).
    { split; [|done]. by rewrite length_fmap, <- Hlen. }
    destruct (getitem_valid d s1 _ _ _ (Z.of_nat i) Hh Ha) as (m & Hitem & Hrun).
    { rewrite length_fmap. lia. }
    exists (length s1), (s1 ++ [ODict m]), m.
    split; [exact Hrun|]. split; [apply lookup_snoc_new|].
    intros f rows Hf Hf1 Hf2.
    pose proof (item_of_field _ _ _ _ _ f Hitem Hf1 Hf2) as Hrow.
    rewrite Hf in Hrow. simpl in Hrow. rewrite tensor_index_nonneg in Hrow.
    destruct (lookup_lt_is_Some_2 rows i) as [r Hr].
    { rewrite (Hb f rows Hf), Hlen. done. }
    exists r. split; [done|]. by rewrite Hrow, Hr. }
  assert (Hwithout : df !! "MOS" = None ∨ df !! "MOS" = Some [] →
    ∃ d s1, load_dataset path model s = (inr d, s1) ∧
      holds d s1 b (Tensor_elt <$> ids) None).
  { intros Hno. eexists _, _. split.
    { eapply get_dataset_without_mos; eauto. }
    pose proof (holds_loaded (scalar := scalar) s b
                  (Tensor_elt <$> ids) None []) as Hh.
    simpl in Hh. exact Hh. }
  destruct Hmos as [Hnone | (ms & Hms & Hlms)].
  - destruct Hwithout as (d & s1 & Hload & Hh); [by left|].
    exists d, s1. split; [exact Hload|]. by eapply Hgen.
  - destruct (decide (length ms = 0%nat)) as [Hz | Hnz].
    + apply length_zero_iff_nil in Hz as ->.
      destruct Hwithout as (d & s1 & Hload & Hh); [by right|].
      exists d, s1. split; [exact Hload|]. by eapply Hgen.
    + eexists _, _. split.
      { eapply get_dataset_with_mos; eauto. by intros ->. }
      pose proof (holds_loaded (scalar := scalar) s b
                    (Tensor_elt <$> ids) (Some (Tensor_elt <$> ms)) []) as Hh.
      simpl in Hh. eapply Hgen; [exact Hh|].
      simpl. by rewrite !length_fmap.
Qed.

End LoaderInGeneral.

(** * The further properties, run on the concrete instances *)

Lemma item_keys_witness :
  ∃ l s1 m,
    getitem Example.dataset 0 Example.heap = (inr l, s1) ∧
    s1 !! l = Some (ODict m) ∧
    dom m = dom Example.batch ∪ {["id"]} ∪ {["label"]}.
Proof.
  destruct (item_keys Example.dataset Example.heap Example.batch
              Example.ids (Some Example.targets) 0
              example_holds example_aligned)
    as (l & s1 & s2 & m & m' & H1 & H2 & H3 & _).
  { simpl. lia. }
  exists l, s1, m. repeat split; assumption.
Defined.

Lemma getitem_succeeds_iff_witness :
  (∃ l s', getitem Example.dataset (-2) Example.heap = (inr l, s')) ∧
  (∃ s', getitem Example.dataset 5 Example.heap = (inl IndexError, s')).
Proof.
  split.
  - apply (proj1 (getitem_succeeds_iff Example.dataset Example.heap
                    Example.batch Example.ids (Some Example.targets) (-2)
                    example_holds ltac:(unfold int64; lia))).
    split; [|simpl; lia].
    unfold Example.batch.
    apply map_Forall_insert_2; [simpl; lia|].
    apply map_Forall_singleton. simpl. lia.
  - apply (proj2 (getitem_succeeds_iff Example.dataset Example.heap
                    Example.batch Example.ids (Some Example.targets) 5
                    example_holds ltac:(unfold int64; lia))).
    intros (_ & Hi & _). simpl in Hi. lia.
Defined.

Lemma init_requires_st_and_id_witness :
  SentenceComplexityDataset_init Example.Tensor_elt
    ({["id" := PList [Num (1 # 1)]%Q]} : gmap string (pyobj Q)) []
  = (inl KeyError, []).
Proof.
  apply (init_requires_st_and_id Example.Tensor_elt
           ({["id" := PList [Num (1 # 1)]%Q]} : gmap string (pyobj Q)) []).
  left. reflexivity.
Defined.

Lemma init_checks_no_lengths_witness :
  ∃ d s1,
    SentenceComplexityDataset_init Example.Tensor_elt EmptyExample.short_data
      [OBatch Example.batch] = (inr d, s1) ∧
    len d s1 = (inr 2%nat, s1) ∧
    (∃ l s2, getitem d 0 s1 = (inr l, s2)) ∧
    (∃ s2, getitem d 1 s1 = (inl IndexError, s2)).
Proof.
  destruct (init_checks_no_lengths Example.Tensor_elt EmptyExample.short_data
              0%nat Example.batch [1 # 1; 2 # 1]%Q [5 # 2]%Q
              [OBatch Example.batch])
    as (d & s1 & Hinit & Hlen & Hok & Hfail); try reflexivity.
  { apply example_aligned. }
  { simpl. lia. }
  exists d, s1. split; [exact Hinit|]. split; [exact Hlen|]. split.
  - apply (Hok 0%nat). simpl. lia.
  - apply (Hfail 1%nat). simpl. lia.
Defined.

Lemma get_dataset_only_allocates_witness :
  get_dataset Example.Tensor_elt Example.from_pretrained Example.read_csv
    "test.csv" "bert-base-uncased" Example.heap
  = (inr {| self_st := PRef 3%nat; self_id := 4%nat; self_mos := None |},
     Example.heap ++ [OBatch Example.batch; OTensor Example.ids]) ∧
  holds Example.dataset
    (Example.heap ++ [OBatch Example.batch; OTensor Example.ids])
    Example.batch Example.ids (Some Example.targets).
Proof.
  assert (Hload :
    get_dataset Example.Tensor_elt Example.from_pretrained Example.read_csv
      "test.csv" "bert-base-uncased" Example.heap
    = (inr {| self_st := PRef 3%nat; self_id := 4%nat; self_mos := None |},
       Example.heap ++ [OBatch Example.batch; OTensor Example.ids])).
  { vm_compute. reflexivity. }
  split; [exact Hload|].
  exact (proj2 (get_dataset_only_allocates Example.Tensor_elt
                  Example.from_pretrained Example.read_csv
                  "test.csv" "bert-base-uncased" Example.heap _ _ Hload)
           Example.dataset Example.batch Example.ids (Some Example.targets)
           example_holds).
Defined.

Lemma loaded_items_carry_tokens_witness :
  ∃ d s1,
    get_dataset Example.Tensor_elt Example.from_pretrained Example.read_csv
      "test.csv" "bert-base-uncased" [] = (inr d, s1) ∧
    ∃ l s2 m, getitem d 1 s1 = (inr l, s2) ∧ s2 !! l = Some (ODict m) ∧
      m !! "input_ids" = Some (VRow [101; 45; 102]).
Proof.
  destruct (loaded_items_carry_tokens Example.Tensor_elt Example.from_pretrained
              Example.read_csv "test.csv" "bert-base-uncased"
              Example.test_csv [1 # 1; 2 # 1]%Q Example.sentences
              Example.tokenizer Example.batch [])
    as (d & s1 & Hload & Hitems); try reflexivity.
  { left. reflexivity. }
  { apply example_aligned. }
  exists d, s1. split; [exact Hload|].
  destruct (Hitems 1%nat) as (l & s2 & m & Hget & Hl & Hrows).
  { simpl. lia. }
  exists l, s2, m. split; [exact Hget|]. split; [exact Hl|].
  destruct (Hrows "input_ids" [[101; 12; 102]; [101; 45; 102]])
    as (r & Hr & Hm); [reflexivity | done | done |].
  injection Hr as <-. exact Hm.
Defined.
